(** * AudioSwitcher: a shallow embedding of [switch_audio.py]

    The script replaces the audio track of every video of a directory by
    one MP3, delegating probing and transcoding to [ffprobe] and [ffmpeg].
    What is verified here is the orchestration: path arithmetic, codec
    choice, audio selection, the combine step, and the batch loop with its
    per-video [try]/[except].

    Conventions of the embedding.
    - Python [str] is [string], the bytes of the text in UTF-8; [str.lower]
      is modelled on the characters whose lower case is ASCII.
    - Python [float] is the primitive binary64 [float]; [round] and the
      [.2f] conversion are computed exactly from the float's mantissa and
      exponent.
    - [pathlib.Path] is a record of an absolute flag and the list of
      components (POSIX flavour).
    - A Python exception is a value of [exn]; a computation returns
      [Ok v] or [Raise e].  Effectful code is a function from the state of
      the outside world to a result and the next state.
    - Everything outside the script (file system, processes, clock,
      standard output, and the parser behind [float(str)]) is a field of
      the record [Host]; theorems hold for every host, and [Sim] is one
      concrete in-memory host on which the definitions are evaluated. *)

From Stdlib Require Import ZArith String Ascii List Lia Bool QArith Qabs.
From Stdlib Require Import Floats DecimalString.
From Stdlib Require Import Sorting Permutation OrderedTypeEx.
Import ListNotations.

Local Open Scope string_scope.
Local Open Scope list_scope.
Local Open Scope Z_scope.

Set Implicit Arguments.
Set Warnings "-inexact-float".

(* ================================================================== *)
(** ** Exceptions and results *)

(** The exception classes the script raises or meets.  [SystemExit]
    derives from [BaseException] only; the others derive from
    [Exception]. *)
Inductive exn : Type :=
| SystemExit (msg : string)
| RuntimeError (msg : string)
| ValueError (msg : string)
| OverflowError (msg : string)
| OSError (msg : string)
| CalledProcessError (returncode : Z) (cmd : list string).

(** [isinstance(e, Exception)] *)
Definition is_Exception (e : exn) : bool :=
  match e with
  | SystemExit _ => false
  | _ => true
  end.

Inductive result (A : Type) : Type :=
| Ok (a : A)
| Raise (e : exn).

Arguments Ok {A} a.
Arguments Raise {A} e.

(* ================================================================== *)
(** ** Strings *)

Definition lower_ascii (c : ascii) : ascii :=
  let n := nat_of_ascii c in
  if (Nat.leb 65 n && Nat.leb n 90)%bool then ascii_of_nat (n + 32) else c.

(** The three bytes of U+212A KELVIN SIGN in UTF-8. *)
Definition is_kelvin_sign (a b c : ascii) : bool :=
  (Nat.eqb (nat_of_ascii a) 226 && Nat.eqb (nat_of_ascii b) 132
   && Nat.eqb (nat_of_ascii c) 170)%bool.

Definition kelvin_sign : string :=
  String (ascii_of_nat 226) (String (ascii_of_nat 132)
    (String (ascii_of_nat 170) EmptyString)).

(** [str.lower()], as far as a comparison with an ASCII text can tell:
    the ASCII capitals become small letters and the Kelvin sign becomes
    [k], the only character outside ASCII whose lower case is ASCII; any
    other character outside ASCII is kept, its lower case being outside
    ASCII as well. *)
Fixpoint lower (s : string) : string :=
  match s with
  | EmptyString => EmptyString
  | String a t =>
      match t with
      | String b (String c r) =>
          if is_kelvin_sign a b c then String "k"%char (lower r)
          else String (lower_ascii a) (lower t)
      | _ => String (lower_ascii a) (lower t)
      end
  end.

(** [s.rfind(".")]; [None] stands for -1. *)
Fixpoint rfind_dot (s : string) : option nat :=
  match s with
  | EmptyString => None
  | String c r =>
      match rfind_dot r with
      | Some i => Some (S i)
      | None => if Ascii.eqb c "."%char then Some 0%nat else None
      end
  end.

(** [c in s] for a character. *)
Fixpoint contains_char (c : ascii) (s : string) : bool :=
  match s with
  | EmptyString => false
  | String a r => (Ascii.eqb a c || contains_char c r)%bool
  end.

(** [s.split(c)] *)
Fixpoint split_on (c : ascii) (s : string) : list string :=
  match s with
  | EmptyString => [EmptyString]
  | String a r =>
      if Ascii.eqb a c then EmptyString :: split_on c r
      else match split_on c r with
           | [] => [String a EmptyString]
           | h :: t => String a h :: t
           end
  end.

Definition starts_with_sep (s : string) : bool :=
  match s with
  | String a _ => Ascii.eqb a "/"%char
  | EmptyString => false
  end.

(** Decimal digits of a non-negative integer. *)
Definition dec (n : Z) : string :=
  NilZero.string_of_uint (N.to_uint (Z.to_N n)).

(** [format(n, "02d")]: the sign counts in the width. *)
Definition fmt_02d (n : Z) : string :=
  if n <? 0 then "-" ++ dec (- n)
  else let d := dec n in
       if Nat.ltb (String.length d) 2 then "0" ++ d else d.

(* ================================================================== *)
(** ** Floats *)

(** Nearest integer to [n / d], ties to the even one ([0 <= n], [0 < d]). *)
Definition round_half_even (n d : Z) : Z :=
  let q := n / d in
  let r := n mod d in
  if 2 * r <? d then q
  else if d <? 2 * r then q + 1
  else if Z.even q then q else q + 1.

(** Nearest integer to [k * m * 2^e], ties to even. *)
Definition round_scaled (k : Z) (m : positive) (e : Z) : Z :=
  if 0 <=? e then k * Zpos m * 2 ^ e
  else round_half_even (k * Zpos m) (2 ^ (- e)).

(** [round(x)] of a float, as [float.__round__] without digits does it: an
    [int], ties to even, an error on NaN and on the infinities. *)
Definition py_round (x : float) : result Z :=
  match Prim2SF x with
  | S754_zero _ => Ok 0
  | S754_infinity _ =>
      Raise (OverflowError "cannot convert float infinity to integer")
  | S754_nan => Raise (ValueError "cannot convert float NaN to integer")
  | S754_finite s m e =>
      let mag := round_scaled 1 m e in
      Ok (if s then - mag else mag)
  end.

(** [f"{x:.2f}"]: correctly rounded to two decimals. *)
Definition fmt_2f (x : float) : string :=
  let render (s : bool) (n : Z) :=
    ((if s then "-" else "") ++ dec (n / 100) ++ "." ++ fmt_02d (n mod 100))%string in
  match Prim2SF x with
  | S754_zero s => render s 0
  | S754_infinity s => if s then "-inf" else "inf"
  | S754_nan => "nan"
  | S754_finite s m e => render s (round_scaled 100 m e)
  end.

(** The exact value of a finite non-negative float, as a rational. *)
Definition sf_value (m : positive) (e : Z) : Q :=
  match e with
  | Zneg k => Qmake (Zpos m) (2 ^ k)%positive
  | _ => inject_Z (Zpos m * 2 ^ e)
  end.

(** The exact value of a finite float. *)
Definition float_to_Q (x : float) : option Q :=
  match Prim2SF x with
  | S754_zero _ => Some 0%Q
  | S754_finite s m e => Some (if s then (- sf_value m e)%Q else sf_value m e)
  | _ => None
  end.

(** Finite floats that are zero or positive. *)
Definition is_nonneg_finite (x : float) : bool :=
  match Prim2SF x with
  | S754_zero _ => true
  | S754_finite s _ _ => negb s
  | _ => false
  end.

(* ================================================================== *)
(** ** pathlib *)

Record Path : Type := mkPath {
  is_abs : bool;          (* the path has the root "/" *)
  parts : list string     (* its components, without the root *)
}.

Definition string_list_eqb (a b : list string) : bool :=
  if list_eq_dec string_dec a b then true else false.

Definition path_eqb (p q : Path) : bool :=
  (Bool.eqb (is_abs p) (is_abs q) && string_list_eqb (parts p) (parts q))%bool.

(** Components of a string given to [Path(...)] or to [/]: empty and "."
    components are dropped. *)
Definition parse_parts (s : string) : list string :=
  filter (fun x => negb (String.eqb x "" || String.eqb x ".")%bool)
         (split_on "/"%char s).

(** [Path(s)] *)
Definition path_of_string (s : string) : Path :=
  mkPath (starts_with_sep s) (parse_parts s).

(** [p / s] *)
Definition joinpath (p : Path) (s : string) : Path :=
  if starts_with_sep s then path_of_string s
  else mkPath (is_abs p) (parts p ++ parse_parts s).

(** [str(p)], which is also [p.as_posix()] for this flavour. *)
Definition str (p : Path) : string :=
  match is_abs p, parts p with
  | true, l => "/" ++ String.concat "/" l
  | false, [] => "."
  | false, l => String.concat "/" l
  end.

(** [p.name] *)
Definition name (p : Path) : string := last (parts p) "".

(** [p.parent] *)
Definition parent (p : Path) : Path := mkPath (is_abs p) (removelast (parts p)).

(** The split of a file name behind [p.stem] and [p.suffix]: the last dot
    counts when it is neither the first nor the last character (the rule
    of CPython 3.10 to 3.13; the script needs 3.10 for its annotations). *)
Definition split_ext (n : string) : string * string :=
  match rfind_dot n with
  | Some i =>
      if (Nat.ltb 0 i && Nat.ltb i (String.length n - 1))%bool
      then (substring 0 i n, substring i (String.length n - i) n)
      else (n, "")
  | None => (n, "")
  end.

(** [p.stem] *)
Definition stem (p : Path) : string := fst (split_ext (name p)).

(** [p.suffix] *)
Definition suffix (p : Path) : string := snd (split_ext (name p)).

(** [p.with_name(n)]: [ValueError] when the path has no name, or when the
    new name is empty, is "." or holds a separator. *)
Definition with_name (p : Path) (n : string) : result Path :=
  if String.eqb (name p) "" then Raise (ValueError (str p ++ " has an empty name"))
  else if (String.eqb n "" || contains_char "/"%char n || String.eqb n ".")%bool
  then Raise (ValueError ("Invalid name " ++ n))
  else Ok (mkPath (is_abs p) (removelast (parts p) ++ [n])).

(** [p.with_suffix(s)]: the suffix must be empty or start with a dot and
    be longer than it, and the path must have a name. *)
Definition with_suffix (p : Path) (s : string) : result Path :=
  if contains_char "/"%char s then Raise (ValueError ("Invalid suffix " ++ s))
  else if ((negb (String.eqb s "") && negb (prefix "." s)) || String.eqb s ".")%bool
  then Raise (ValueError ("Invalid suffix " ++ s))
  else if String.eqb (name p) "" then Raise (ValueError (str p ++ " has an empty name"))
  else Ok (mkPath (is_abs p) (removelast (parts p) ++ [(stem p ++ s)%string])).

(** The directory entries the script meets: a non-empty component that is
    not "." and holds no separator. *)
Definition is_entry_name (n : string) : bool :=
  (negb (String.eqb n "") && negb (String.eqb n ".")
   && negb (contains_char "/"%char n))%bool.

(** Paths as directory listings give them: every component is an entry
    name. *)
Definition plain_path (p : Path) : bool := forallb is_entry_name (parts p).

(** Order of paths: the lists of components are compared, the root first. *)
Definition cparts (p : Path) : list string :=
  (if is_abs p then ["/"] else []) ++ parts p.

Fixpoint parts_ltb (a b : list string) : bool :=
  match a, b with
  | [], [] => false
  | [], _ :: _ => true
  | _ :: _, [] => false
  | x :: a', y :: b' =>
      match String.compare x y with
      | Lt => true
      | Gt => false
      | Eq => parts_ltb a' b'
      end
  end.

Definition path_ltb (p q : Path) : bool := parts_ltb (cparts p) (cparts q).

(** [sorted(paths)]: a stable insertion sort. *)
Fixpoint insert_sorted (p : Path) (l : list Path) : list Path :=
  match l with
  | [] => [p]
  | q :: r => if path_ltb p q then p :: l else q :: insert_sorted p r
  end.

Definition sorted (l : list Path) : list Path :=
  fold_left (fun acc p => insert_sorted p acc) l [].

(* ================================================================== *)
(** ** The outside world *)

(** What launching a child process and waiting for it gives: it ran and
    left a return code and its standard output, or it could not be
    started at all. *)
Inductive proc_outcome : Type :=
| Exited (returncode : Z) (stdout : string)
| NotStarted (msg : string).

Record Host (World : Type) : Type := mkHost {
  (* the interpreter *)
  py_float : string -> option float;          (* float(s); None is ValueError *)
  py_strip : string -> string;                (* s.strip() *)
  cpe_str : Z -> list string -> string;       (* str(CalledProcessError) *)
  (* processes *)
  which : string -> World -> bool;            (* shutil.which(t) is not None *)
  spawn : list string -> World -> proc_outcome * World;
  (* file system *)
  path_exists : Path -> World -> bool;
  is_file : Path -> World -> bool;
  st_mtime : Path -> World -> result float;
  glob : Path -> string -> World -> list Path;
  iterdir : Path -> World -> result (list Path);
  mkdir_parents : Path -> World -> result unit * World;
  os_replace : Path -> Path -> World -> result unit * World;
  mkdtemp : World -> result Path * World;
  rmtree : Path -> World -> World;
  write_text : Path -> string -> World -> result unit * World;
  (* clock and terminal *)
  now_strftime : string -> World -> string;
  print : string -> World -> result unit * World
}.

(** The parsed command line ([args]), with the defaults of the parser. *)
Record Args : Type := mkArgs {
  arg_combine : bool;
  arg_audio_file : option Path;
  arg_audio_dir : Path;
  arg_audio_pick : string;
  arg_audio_name : option string;
  arg_audio_input_dir : Path;
  arg_video_dir : Path;
  arg_audio_codec : option string;
  arg_suffix : string;
  arg_in_place : bool;
  arg_overwrite : bool;
  arg_list_audio_lengths : bool
}.

Definition default_args : Args :=
  {| arg_combine := false;
     arg_audio_file := None;
     arg_audio_dir := path_of_string "audio";
     arg_audio_pick := "latest";
     arg_audio_name := None;
     arg_audio_input_dir := path_of_string "audio-input";
     arg_video_dir := path_of_string "video";
     arg_audio_codec := None;
     arg_suffix := "_newaudio";
     arg_in_place := false;
     arg_overwrite := false;
     arg_list_audio_lengths := false |}.


(* ================================================================== *)
(** ** Pure parts of the script *)

Definition VIDEO_EXTS : list string :=
  [".mp4"; ".mov"; ".mkv"; ".avi"; ".m4v"; ".webm"].

(** [x in xs] for strings. *)
Definition str_in (x : string) (xs : list string) : bool :=
  existsb (String.eqb x) xs.

Definition format_duration (seconds : float) : result string :=
  match py_round seconds with
  | Raise e => Raise e
  | Ok total =>
      let hours := total / 3600 in
      let minutes := (total mod 3600) / 60 in
      let secs := total mod 60 in
      Ok (fmt_02d hours ++ ":" ++ fmt_02d minutes ++ ":" ++ fmt_02d secs)%string
  end.

Definition build_output_path (video_path : Path) (sfx : string)
  (in_place : bool) : result Path :=
  if in_place
  then with_name video_path (stem video_path ++ "_tmp" ++ suffix video_path)
  else with_name video_path (stem video_path ++ sfx ++ suffix video_path).

Definition choose_audio_codec_for_path (path : Path) : string :=
  let ext := lower (suffix path) in
  if String.eqb ext ".webm" then "opus"
  else if str_in ext [".mp4"; ".mov"; ".m4v"; ".mkv"] then "aac"
  else if String.eqb ext ".avi" then "mp3"
  else "aac".

(** Line 239: the comparison that decides on [-shortest]. *)
Definition use_shortest (audio_duration video_duration : float) : bool :=
  PrimFloat.ltb (PrimFloat.add video_duration 0.01%float) audio_duration.

(** Line 245: [args.audio_codec or choose_audio_codec_for_path(output_path)];
    [None] and the empty string are the falsy values. *)
Definition resolve_audio_codec (override : option string) (output_path : Path)
  : string :=
  match override with
  | Some c => if String.eqb c "" then choose_audio_codec_for_path output_path else c
  | None => choose_audio_codec_for_path output_path
  end.

(** [l.insert(i, x)] *)
Definition list_insert {A : Type} (i : nat) (x : A) (l : list A) : list A :=
  firstn i l ++ x :: skipn i l.

(** Lines 247-268: the command line of the remux. *)
Definition transcode_cmd (video_path audio_path output_path : Path)
  (audio_codec : string) (shortest : bool) (force : bool) : list string :=
  let cmd := ["ffmpeg"; "-hide_banner"; "-stats";
              "-i"; str video_path; "-i"; str audio_path;
              "-map"; "0:v:0"; "-map"; "1:a:0";
              "-c:v"; "copy"; "-c:a"; audio_codec] in
  let cmd := if shortest then cmd ++ ["-shortest"] else cmd in
  let cmd := if force then list_insert 1 "-y" cmd else cmd in
  cmd ++ [str output_path].

Definition ffprobe_cmd (path : Path) : list string :=
  ["ffprobe"; "-v"; "error"; "-show_entries"; "format=duration";
   "-of"; "default=nw=1:nk=1"; str path].

Definition newline : string := String (ascii_of_nat 10) EmptyString.

(** Lines 88-89: the lines written to the concat list. *)
Definition concat_manifest (files : list Path) : string :=
  String.concat "" (map (fun p => "file '" ++ str p ++ "'" ++ newline)%string files).

Definition combine_cmd (list_path output_path : Path) : list string :=
  ["ffmpeg"; "-y"; "-f"; "concat"; "-safe"; "0"; "-i"; str list_path;
   "-c:a"; "libmp3lame"; "-q:a"; "2"; str output_path].

(** The exit status of the interpreter for the way [main] ends: 0 on a
    normal return, 1 on [SystemExit] with a message and on any exception
    that escapes. *)
Definition exit_status (r : result unit) : Z :=
  match r with
  | Ok _ => 0
  | Raise _ => 1
  end.

(* ================================================================== *)
(** ** Effectful parts of the script *)

Section Script.

Context {World : Type} (H : Host World).

(** A computation of the script: it reads and changes the world and
    returns a value or raises. *)
Definition M (A : Type) : Type := World -> result A * World.

Definition ret {A : Type} (a : A) : M A := fun w => (Ok a, w).

Definition raise {A : Type} (e : exn) : M A := fun w => (Raise e, w).

Definition bind {A B : Type} (c : M A) (k : A -> M B) : M B :=
  fun w =>
    match c w with
    | (Ok a, w') => k a w'
    | (Raise e, w') => (Raise e, w')
    end.

(** An observation of the world that changes nothing. *)
Definition read {A : Type} (f : World -> A) : M A := fun w => (Ok (f w), w).

(** A pure step that may raise. *)
Definition lift {A : Type} (r : result A) : M A := fun w => (r, w).

Notation "x <- c ;; k" := (bind c (fun x => k))
  (at level 61, c at next level, right associativity).

(** [str(exc)] *)
Definition exn_str (e : exn) : string :=
  match e with
  | SystemExit m | RuntimeError m | ValueError m | OverflowError m | OSError m => m
  | CalledProcessError rc cmd => cpe_str H rc cmd
  end.

(** [subprocess.run(cmd, check=check).returncode] *)
Definition subprocess_run (cmd : list string) (check : bool) : M Z :=
  fun w =>
    match spawn H cmd w with
    | (Exited rc _, w') =>
        if (check && negb (rc =? 0))%bool
        then (Raise (CalledProcessError rc cmd), w')
        else (Ok rc, w')
    | (NotStarted msg, w') => (Raise (OSError msg), w')
    end.

(** [subprocess.check_output(cmd, text=True)] *)
Definition subprocess_check_output (cmd : list string) : M string :=
  fun w =>
    match spawn H cmd w with
    | (Exited rc out, w') =>
        if rc =? 0 then (Ok out, w')
        else (Raise (CalledProcessError rc cmd), w')
    | (NotStarted msg, w') => (Raise (OSError msg), w')
    end.

Definition which_or_die (tool : string) : M unit :=
  fun w =>
    if which H tool w then (Ok tt, w)
    else (Raise (SystemExit ("Missing required tool: " ++ tool)), w).

Definition run (cmd : list string) (check : bool) : M Z :=
  subprocess_run cmd check.

Definition ffprobe_duration (path : Path) : M float :=
  out <- subprocess_check_output (ffprobe_cmd path) ;;
  let out := py_strip H out in
  match py_float H out with
  | Some d => ret d
  | None =>
      raise (SystemExit ("Could not parse duration for " ++ str path ++ ": " ++ out))
  end.

(** [max(files, key=...)] and [min(files, key=...)] over the modification
    times: the first element stays unless a later one is strictly
    [better]. *)
Fixpoint select_by_mtime (better : float -> float -> bool) (w : World)
  (best : Path) (best_key : float) (rest : list Path) : result Path :=
  match rest with
  | [] => Ok best
  | p :: rest' =>
      match st_mtime H p w with
      | Raise e => Raise e
      | Ok k =>
          if better k best_key then select_by_mtime better w p k rest'
          else select_by_mtime better w best best_key rest'
      end
  end.

Definition pick_by_mtime (better : float -> float -> bool) (files : list Path)
  : M (option Path) :=
  fun w =>
    match files with
    | [] => (Ok None, w)
    | p :: rest =>
        match st_mtime H p w with
        | Raise e => (Raise e, w)
        | Ok k =>
            match select_by_mtime better w p k rest with
            | Ok best => (Ok (Some best), w)
            | Raise e => (Raise e, w)
            end
        end
    end.

(** Line 68: the candidates whose name or stem is the requested one. *)
Definition name_matches (files : list Path) (n : string) : list Path :=
  filter (fun p => (String.eqb (name p) n || String.eqb (stem p) n)%bool) files.

(** Line 51: the regular files of the directory that match [*.mp3]. *)
Definition mp3_files (audio_dir : Path) (w : World) : list Path :=
  filter (fun p => is_file H p w) (glob H audio_dir "*.mp3" w).

Definition pick_mp3 (audio_dir : Path) (mode : string) (nm : option string)
  : M (option Path) :=
  files <- read (mp3_files audio_dir) ;;
  match files with
  | [] => ret None
  | _ =>
    if String.eqb mode "latest"
    then pick_by_mtime (fun k best => PrimFloat.ltb best k) files
    else if String.eqb mode "oldest"
    then pick_by_mtime (fun k best => PrimFloat.ltb k best) files
    else if String.eqb mode "name" then
      match nm with
      | None =>
          raise (SystemExit "--audio-name is required when using --audio-pick name")
      | Some n =>
          if String.eqb n ""
          then raise (SystemExit "--audio-name is required when using --audio-pick name")
          else
            let candidate := joinpath audio_dir n in
            candidate <-
              (if negb (String.eqb (lower (suffix candidate)) ".mp3")
               then
                 mp3_candidate <- lift (with_suffix candidate ".mp3") ;;
                 found <- read (path_exists H mp3_candidate) ;;
                 ret (if found then mp3_candidate else candidate)
               else ret candidate) ;;
            found <- read (path_exists H candidate) ;;
            if found then ret (Some candidate)
            else
              let matches := name_matches files n in
              match matches with
              | [m] => ret (Some m)
              | _ :: _ :: _ =>
                  let names := String.concat ", " (map name matches) in
                  raise (SystemExit
                           ("Multiple matches for --audio-name " ++ n ++ ": " ++ names))
              | [] =>
                  raise (SystemExit
                           ("No MP3 found in " ++ str audio_dir ++ " named " ++ n))
              end
      end
    else raise (SystemExit ("Unknown audio pick mode: " ++ mode))
  end.

(** The [with tempfile.TemporaryDirectory() as tmpdir] block: the
    directory is removed however the body ends. *)
Definition with_temporary_directory {A : Type} (body : Path -> M A) : M A :=
  fun w =>
    match mkdtemp H w with
    | (Raise e, w1) => (Raise e, w1)
    | (Ok tmpdir, w1) =>
        let '(r, w2) := body tmpdir w1 in
        (r, rmtree H tmpdir w2)
    end.

Definition combine_mp3s (audio_input_dir output_path : Path) : M unit :=
  files <- read (fun w => sorted (glob H audio_input_dir "*.mp3" w)) ;;
  match files with
  | [] => raise (SystemExit ("No MP3 files found in " ++ str audio_input_dir))
  | _ =>
      _ <- mkdir_parents H (parent output_path) ;;
      with_temporary_directory (fun tmpdir =>
        let list_path := joinpath tmpdir "concat.txt" in
        _ <- write_text H list_path (concat_manifest files) ;;
        _ <- run (combine_cmd list_path output_path) true ;;
        ret tt)
  end.

(** Lines 238-273: the body of the [try] for one video. *)
Definition process_video (args : Args) (audio_path : Path)
  (audio_duration : float) (video_path : Path) : M unit :=
  video_duration <- ffprobe_duration video_path ;;
  let shortest := use_shortest audio_duration video_duration in
  output_path <-
    lift (build_output_path video_path (arg_suffix args) (arg_in_place args)) ;;
  present <- read (path_exists H output_path) ;;
  if (present && negb (arg_overwrite args))%bool
  then raise (RuntimeError ("Output exists: " ++ str output_path ++ " (use --overwrite)"))
  else
    let audio_codec := resolve_audio_codec (arg_audio_codec args) output_path in
    let cmd := transcode_cmd video_path audio_path output_path audio_codec
                 shortest (arg_overwrite args || arg_in_place args) in
    _ <- run cmd true ;;
    if arg_in_place args then os_replace H output_path video_path else ret tt.

(** Lines 235-276: the loop; [except Exception] catches what derives from
    [Exception] and lets the rest through; an error of the [print] in the
    handler leaves the loop. *)
Fixpoint process_all (args : Args) (audio_path : Path) (audio_duration : float)
  (videos : list Path) (failures : list (Path * string))
  : M (list (Path * string)) :=
  match videos with
  | [] => ret failures
  | video_path :: rest =>
      fun w =>
        match process_video args audio_path audio_duration video_path w with
        | (Ok _, w') => process_all args audio_path audio_duration rest failures w'
        | (Raise exc, w') =>
            if is_Exception exc then
              let failures := failures ++ [(video_path, exn_str exc)] in
              match print H ("Failed: " ++ str video_path
                             ++ " (" ++ exn_str exc ++ ")") w' with
              | (Ok _, w'') =>
                  process_all args audio_path audio_duration rest failures w''
              | (Raise e, w'') => (Raise e, w'')
              end
            else (Raise exc, w')
        end
  end.

(** Lines 205-208: the loop of the listing mode. *)
Fixpoint list_lengths_loop (audio_files : list Path) (total : float) : M float :=
  match audio_files with
  | [] => ret total
  | p :: rest =>
      duration <- ffprobe_duration p ;;
      let total := PrimFloat.add total duration in
      text <- lift (format_duration duration) ;;
      _ <- print H (name p ++ ": " ++ text ++ " (" ++ fmt_2f duration ++ "s)") ;;
      list_lengths_loop rest total
  end.

(** Lines 199-210: [--list-audio-lengths]. *)
Definition main_list_audio_lengths (args : Args) : M unit :=
  audio_files <- read (fun w => sorted (mp3_files (arg_audio_dir args) w)) ;;
  match audio_files with
  | [] => print H ("No MP3 files found in " ++ str (arg_audio_dir args))
  | _ =>
      total <- list_lengths_loop audio_files 0%float ;;
      text <- lift (format_duration total) ;;
      print H ("Total: " ++ text ++ " (" ++ fmt_2f total ++ "s)")
  end.

(** Lines 212-220: which file is the audio of the run. *)
Definition main_resolve_audio (args : Args) : M Path :=
  match arg_audio_file args with
  | Some audio_file => ret audio_file
  | None =>
      audio_path <-
        pick_mp3 (arg_audio_dir args) (arg_audio_pick args) (arg_audio_name args) ;;
      match arg_combine args, audio_path with
      | false, Some p => ret p
      | _, _ =>
          ts <- read (now_strftime H "%Y.%m.%d-%H.%M.%S") ;;
          let combined := joinpath (arg_audio_dir args) (ts ++ ".mp3") in
          _ <- combine_mp3s (arg_audio_input_dir args) combined ;;
          ret combined
      end
  end.

(** Line 229: the entries of the video directory with a video extension. *)
Definition select_videos (entries : list Path) : list Path :=
  filter (fun p => str_in (lower (suffix p)) VIDEO_EXTS) (sorted entries).

(** Lines 222-279: from the existence check of the audio to the end. *)
Definition main_batch (args : Args) (audio_path : Path) : M unit :=
  found <- read (path_exists H audio_path) ;;
  if negb found
  then raise (SystemExit ("Audio file not found: " ++ str audio_path))
  else
    let video_dir := arg_video_dir args in
    found <- read (path_exists H video_dir) ;;
    if negb found
    then raise (SystemExit ("Video directory not found: " ++ str video_dir))
    else
      entries <- (fun w => (iterdir H video_dir w, w)) ;;
      let videos := select_videos entries in
      match videos with
      | [] => raise (SystemExit ("No video files found in " ++ str video_dir))
      | _ =>
          audio_duration <- ffprobe_duration audio_path ;;
          failures <- process_all args audio_path audio_duration videos [] ;;
          match failures with
          | [] => ret tt
          | _ =>
              raise (SystemExit
                       (dec (Z.of_nat (List.length failures)) ++ " video(s) failed"))
          end
      end.

Definition main (args : Args) : M unit :=
  _ <- which_or_die "ffmpeg" ;;
  _ <- which_or_die "ffprobe" ;;
  if arg_list_audio_lengths args then main_list_audio_lengths args
  else
    audio_path <- main_resolve_audio args ;;
    main_batch args audio_path.

End Script.

(* ================================================================== *)
(** ** An in-memory host

    A small world to run the script on: files with a text and a
    modification time, directories, the tools on the search path, and a
    terminal.  The text of a media file is what [ffprobe] prints for it;
    [ffmpeg] fails on the inputs listed in [sw_broken], leaving a partial
    output behind; otherwise a remux copies the video's text to the output
    and a concatenation produces a track of 12.5 seconds.
    [sw_nocase] makes pattern matching ignore case, as pathlib does on
    Windows. *)

Module Sim.

Record file : Type := mkFile {
  f_path : Path;
  f_data : string;
  f_mtime : float
}.

Record world : Type := mkWorld {
  sw_files : list file;
  sw_dirs : list Path;
  sw_tools : list string;
  sw_broken : list string;
  sw_nocase : bool;
  sw_clock : string;
  sw_stdout : list string
}.

Definition set_files (w : world) (fs : list file) : world :=
  mkWorld fs (sw_dirs w) (sw_tools w) (sw_broken w) (sw_nocase w)
          (sw_clock w) (sw_stdout w).

Definition set_dirs (w : world) (ds : list Path) : world :=
  mkWorld (sw_files w) ds (sw_tools w) (sw_broken w) (sw_nocase w)
          (sw_clock w) (sw_stdout w).

Definition find_file (p : Path) (w : world) : option file :=
  find (fun f => path_eqb (f_path f) p) (sw_files w).

Definition is_dir (p : Path) (w : world) : bool :=
  existsb (path_eqb p) (sw_dirs w).

Definition sim_is_file (p : Path) (w : world) : bool :=
  match find_file p w with Some _ => true | None => false end.

Definition sim_exists (p : Path) (w : world) : bool :=
  (sim_is_file p w || is_dir p w)%bool.

Definition sim_mtime (p : Path) (w : world) : result float :=
  match find_file p w with
  | Some f => Ok (f_mtime f)
  | None => if is_dir p w then Ok 0%float else Raise (OSError "No such file or directory")
  end.

Definition remove_file (p : Path) (fs : list file) : list file :=
  filter (fun f => negb (path_eqb (f_path f) p)) fs.

Definition put_file (p : Path) (data : string) (w : world) : world :=
  set_files w (remove_file p (sw_files w) ++ [mkFile p data 0%float]).

(** Entries of a directory: its files, then its subdirectories. *)
Definition entries (dir : Path) (w : world) : list Path :=
  filter (fun p => (negb (path_eqb p dir) && path_eqb (parent p) dir)%bool)
         (map f_path (sw_files w) ++ sw_dirs w).

Fixpoint ends_with (s t : string) : bool :=
  (String.eqb s t
   || match s with
      | EmptyString => false
      | String _ r => ends_with r t
      end)%bool.

(** [fnmatch] for the patterns of the shape [*text]. *)
Definition fnmatch (nocase : bool) (n pat : string) : bool :=
  let fold := fun s => if nocase then lower s else s in
  match pat with
  | String "*"%char rest => ends_with (fold n) (fold rest)
  | _ => String.eqb (fold n) (fold pat)
  end.

Definition sim_glob (dir : Path) (pat : string) (w : world) : list Path :=
  filter (fun p => fnmatch (sw_nocase w) (name p) pat) (entries dir w).

Definition sim_iterdir (dir : Path) (w : world) : result (list Path) :=
  if is_dir dir w then Ok (entries dir w)
  else Raise (OSError "Not a directory").

(** The path and its ancestors, the path first. *)
Fixpoint ancestors (n : nat) (p : Path) : list Path :=
  match n with
  | O => []
  | S n' => match parts p with
            | [] => []
            | _ => p :: ancestors n' (parent p)
            end
  end.

Definition sim_mkdir_parents (p : Path) (w : world) : result unit * world :=
  if sim_is_file p w then (Raise (OSError "File exists"), w)
  else
    let missing := filter (fun d => negb (is_dir d w))
                          (ancestors (List.length (parts p)) p) in
    (Ok tt, set_dirs w (sw_dirs w ++ rev missing)).

Definition sim_replace (src dst : Path) (w : world) : result unit * world :=
  match find_file src w with
  | None => (Raise (OSError "No such file or directory"), w)
  | Some f =>
      let others := remove_file dst (remove_file src (sw_files w)) in
      (Ok tt, set_files w (others ++ [mkFile dst (f_data f) (f_mtime f)]))
  end.

Definition tmp_path : Path := path_of_string "/tmp/tmpaudio".

Definition sim_mkdtemp (w : world) : result Path * world :=
  (Ok tmp_path, set_dirs w (sw_dirs w ++ [tmp_path])).

Definition sim_rmtree (p : Path) (w : world) : world :=
  set_dirs
    (set_files w (filter (fun f => negb (path_eqb (parent (f_path f)) p)) (sw_files w)))
    (filter (fun d => negb (path_eqb d p)) (sw_dirs w)).

Definition sim_write_text (p : Path) (s : string) (w : world) : result unit * world :=
  if is_dir (parent p) w then (Ok tt, put_file p s w)
  else (Raise (OSError "No such file or directory"), w).

(** A byte that no UTF-8 text holds (248 to 255). *)
Fixpoint has_stray_byte (s : string) : bool :=
  match s with
  | EmptyString => false
  | String a r => (Nat.leb 248 (nat_of_ascii a) || has_stray_byte r)%bool
  end.

(** The terminal takes UTF-8 only: printing a text with a stray byte, as
    in a file name that is no UTF-8, raises [UnicodeEncodeError], a
    [ValueError]. *)
Definition sim_print (s : string) (w : world) : result unit * world :=
  if has_stray_byte s
  then (Raise (ValueError "'utf-8' codec can't encode character: surrogates not allowed"), w)
  else (Ok tt,
        mkWorld (sw_files w) (sw_dirs w) (sw_tools w) (sw_broken w) (sw_nocase w)
                (sw_clock w) (sw_stdout w ++ [s])).

(** The arguments that follow ["-i"]. *)
Fixpoint inputs_of (cmd : list string) : list string :=
  match cmd with
  | a :: ((b :: _) as rest) =>
      if String.eqb a "-i" then b :: inputs_of rest else inputs_of rest
  | _ => []
  end.

Definition sim_ffprobe (cmd : list string) (w : world) : proc_outcome * world :=
  match find_file (path_of_string (last cmd "")) w with
  | Some f =>
      if String.eqb (f_data f) "corrupt" then (Exited 1 "", w)
      else (Exited 0 (f_data f ++ newline), w)
  | None => (Exited 1 "", w)
  end.

Definition sim_ffmpeg (cmd : list string) (w : world) : proc_outcome * world :=
  let out := path_of_string (last cmd "") in
  match inputs_of cmd with
  | first :: _ =>
      match find_file (path_of_string first) w with
      | None => (Exited 1 "", w)
      | Some f =>
          if str_in first (sw_broken w)
          then (Exited 1 "", put_file out "partial" w)
          else if str_in "concat" cmd then (Exited 0 "", put_file out "12.5" w)
          else (Exited 0 "", put_file out (f_data f) w)
      end
  | [] => (Exited 1 "", w)
  end.

Definition sim_spawn (cmd : list string) (w : world) : proc_outcome * world :=
  match cmd with
  | tool :: _ =>
      if negb (str_in tool (sw_tools w)) then (NotStarted "No such file or directory", w)
      else if String.eqb tool "ffprobe" then sim_ffprobe cmd w
      else if String.eqb tool "ffmpeg" then sim_ffmpeg cmd w
      else (Exited 127 "", w)
  | [] => (NotStarted "empty command", w)
  end.

Definition is_space (c : ascii) : bool :=
  let n := nat_of_ascii c in
  (Nat.eqb n 32 || (Nat.leb 9 n && Nat.leb n 13))%bool.

Fixpoint lstrip (s : string) : string :=
  match s with
  | String c r => if is_space c then lstrip r else s
  | EmptyString => EmptyString
  end.

Fixpoint rstrip (s : string) : string :=
  match s with
  | EmptyString => EmptyString
  | String c r =>
      match rstrip r with
      | EmptyString => if is_space c then EmptyString else String c EmptyString
      | r' => String c r'
      end
  end.

Definition sim_strip (s : string) : string := rstrip (lstrip s).

(** The duration texts the simulated parser knows. *)
Definition float_table : list (string * float) :=
  [("10.0", 10.0%float); ("10.00", 10.0%float); ("10.005", 10.005%float);
   ("10.02", 10.02%float); ("12.5", 12.5%float); ("59.6", 59.6%float);
   ("3661", 3661%float); ("nan", PrimFloat.nan)].

Definition sim_float (s : string) : option float :=
  match find (fun kv => String.eqb (fst kv) s) float_table with
  | Some kv => Some (snd kv)
  | None => None
  end.

Definition sim_cpe_str (rc : Z) (cmd : list string) : string :=
  "Command '[" ++ String.concat ", " (map (fun a => "'" ++ a ++ "'")%string cmd)
  ++ "]' returned non-zero exit status " ++ dec rc ++ ".".

Definition host : Host world :=
  {| py_float := sim_float;
     py_strip := sim_strip;
     cpe_str := sim_cpe_str;
     which := fun t w => str_in t (sw_tools w);
     spawn := sim_spawn;
     path_exists := sim_exists;
     is_file := sim_is_file;
     st_mtime := sim_mtime;
     glob := sim_glob;
     iterdir := sim_iterdir;
     mkdir_parents := sim_mkdir_parents;
     os_replace := sim_replace;
     mkdtemp := sim_mkdtemp;
     rmtree := sim_rmtree;
     write_text := sim_write_text;
     now_strftime := fun _ w => sw_clock w;
     print := sim_print |}.

(** A world from its files and directories, both tools installed. *)
Definition make (fs : list (string * string)) (ds : list string)
  (broken : list string) (nocase : bool) : world :=
  {| sw_files := map (fun kv => mkFile (path_of_string (fst kv)) (snd kv) 0%float) fs;
     sw_dirs := map path_of_string ds;
     sw_tools := ["ffmpeg"; "ffprobe"];
     sw_broken := broken;
     sw_nocase := nocase;
     sw_clock := "2024.01.02-03.04.05";
     sw_stdout := [] |}.

(** What an observer sees of a file: its text, if it is there. *)
Definition data_at (p : string) (w : world) : option string :=
  option_map f_data (find_file (path_of_string p) w).

End Sim.

(** Worlds and command lines on which the script is run below. *)
Module Scenario.

Definition audio : Path := path_of_string "audio".
Definition song : Path := path_of_string "audio/song.mp3".
Definition a_mp4 : Path := path_of_string "video/a.mp4".
Definition b_mkv : Path := path_of_string "video/b.mkv".
Definition c_webm : Path := path_of_string "video/c.webm".

(** Three videos; the probe of the second prints "N/A". *)
Definition second_unparseable : Sim.world :=
  Sim.make [("audio/song.mp3", "12.5"); ("video/a.mp4", "10.0");
            ("video/b.mkv", "N/A"); ("video/c.webm", "10.0")]
           ["audio"; "video"] [] false.

(** Three videos; the second cannot be probed at all. *)
Definition second_corrupt : Sim.world :=
  Sim.make [("audio/song.mp3", "12.5"); ("video/a.mp4", "10.0");
            ("video/b.mkv", "corrupt"); ("video/c.webm", "10.0")]
           ["audio"; "video"] [] false.

(** Two videos; the transcode of [c.webm] fails. *)
Definition transcode_fails : Sim.world :=
  Sim.make [("audio/song.mp3", "12.5"); ("video/a.mp4", "10.0");
            ("video/c.webm", "10.02")]
           ["audio"; "video"] ["video/c.webm"] false.

Definition in_place_args : Args :=
  {| arg_combine := false;
     arg_audio_file := None;
     arg_audio_dir := path_of_string "audio";
     arg_audio_pick := "latest";
     arg_audio_name := None;
     arg_audio_input_dir := path_of_string "audio-input";
     arg_video_dir := path_of_string "video";
     arg_audio_codec := None;
     arg_suffix := "_newaudio";
     arg_in_place := true;
     arg_overwrite := false;
     arg_list_audio_lengths := false |}.

(** No audio to pick and nothing to combine. *)
Definition nothing_to_combine : Sim.world :=
  Sim.make [("audio-input/notes.txt", "to do"); ("video/a.mp4", "10.0")]
           ["audio-input"; "video"] [] false.


(** An explicit audio file next to options that would pick by a name that
    is not given and combine from a directory without fragments. *)
Definition explicit_audio : Sim.world :=
  Sim.make [("music/x.mp3", "12.5"); ("audio/a.mp3", "10.0");
            ("video/a.mp4", "10.0")]
           ["music"; "audio"; "audio-input"; "video"] [] false.

Definition explicit_audio_args : Args :=
  {| arg_combine := true;
     arg_audio_file := Some (path_of_string "music/x.mp3");
     arg_audio_dir := path_of_string "audio";
     arg_audio_pick := "name";
     arg_audio_name := None;
     arg_audio_input_dir := path_of_string "audio-input";
     arg_video_dir := path_of_string "video";
     arg_audio_codec := None;
     arg_suffix := "_newaudio";
     arg_in_place := false;
     arg_overwrite := false;
     arg_list_audio_lengths := false |}.

(** A video directory without videos. *)
Definition no_videos : Sim.world :=
  Sim.make [("audio/song.mp3", "12.5"); ("video/notes.txt", "to do");
            ("video/cover.jpg", "picture")]
           ["audio"; "video"] [] false.

(** Three tracks with different modification times. *)
Definition three_ages : Sim.world :=
  {| Sim.sw_files :=
       [Sim.mkFile (path_of_string "audio/b.mp3") "10.0" 3%float;
        Sim.mkFile (path_of_string "audio/c.mp3") "12.5" 7%float;
        Sim.mkFile (path_of_string "audio/a.mp3") "59.6" 5%float];
     Sim.sw_dirs := [path_of_string "audio"];
     Sim.sw_tools := ["ffmpeg"; "ffprobe"];
     Sim.sw_broken := [];
     Sim.sw_nocase := false;
     Sim.sw_clock := "2024.01.02-03.04.05";
     Sim.sw_stdout := [] |}.

(** A track outside the audio directory, and one inside. *)
Definition track_elsewhere : Sim.world :=
  Sim.make [("/music/x.mp3", "12.5"); ("audio/a.mp3", "10.0")]
           ["/music"; "audio"] [] false.

(** [song.mp3] next to [song.wav]. *)
Definition wav_and_mp3 : Sim.world :=
  Sim.make [("audio/song.wav", "12.5"); ("audio/song.mp3", "10.0")]
           ["audio"] [] false.

(** A track whose stem holds a dot. *)
Definition dotted_stem : Sim.world :=
  Sim.make [("audio/my.song.mp3", "12.5"); ("audio/other.mp3", "10.0")]
           ["audio"] [] false.

(** A machine without [ffprobe]. *)
Definition no_ffprobe : Sim.world :=
  {| Sim.sw_files := [Sim.mkFile (path_of_string "audio/song.mp3") "12.5" 0%float;
                      Sim.mkFile (path_of_string "video/a.mp4") "10.0" 0%float];
     Sim.sw_dirs := [path_of_string "audio"; path_of_string "video"];
     Sim.sw_tools := ["ffmpeg"];
     Sim.sw_broken := [];
     Sim.sw_nocase := false;
     Sim.sw_clock := "2024.01.02-03.04.05";
     Sim.sw_stdout := [] |}.

(** Fragments to combine, a track to pick, and a video. *)
Definition fragments : Sim.world :=
  Sim.make [("audio-input/b.mp3", "10.0"); ("audio-input/a.mp3", "10.0");
            ("audio/old.mp3", "59.6"); ("video/a.mp4", "10.0")]
           ["audio-input"; "audio"; "video"] [] false.

(** The same, with a first fragment on which the concatenation fails. *)
Definition bad_fragment : Sim.world :=
  Sim.make [("audio-input/b.mp3", "10.0"); ("audio-input/a.mp3", "10.0");
            ("audio/old.mp3", "59.6"); ("video/a.mp4", "10.0")]
           ["audio-input"; "audio"; "video"] ["/tmp/tmpaudio/concat.txt"] false.

(** A video next to the output that a run without [--in-place] would
    write. *)
Definition output_taken : Sim.world :=
  Sim.make [("audio/song.mp3", "12.5"); ("video/a.mp4", "10.0");
            ("video/a_newaudio.mp4", "earlier")]
           ["audio"; "video"] [] false.

(** An audio file that cannot be probed. *)
Definition audio_corrupt : Sim.world :=
  Sim.make [("audio/song.mp3", "corrupt"); ("video/a.mp4", "10.0")]
           ["audio"; "video"] [] false.

(** A video whose name is no UTF-8 and which cannot be probed, before
    another video. *)
Definition unprintable_name : Sim.world :=
  Sim.make [("audio/song.mp3", "12.5");
            (("video/b" ++ String (ascii_of_nat 255) ".mkv")%string, "corrupt");
            ("video/c.webm", "10.0")]
           ["audio"; "video"] [] false.

(** A video whose extension is written with the Kelvin sign for [k]. *)
Definition kelvin_extension : Sim.world :=
  Sim.make [("audio/song.mp3", "12.5");
            (("video/x.m" ++ kelvin_sign ++ "v")%string, "10.0")]
           ["audio"; "video"] [] false.

Definition list_args : Args :=
  {| arg_combine := true;
     arg_audio_file := Some (path_of_string "nowhere/x.mp3");
     arg_audio_dir := path_of_string "audio";
     arg_audio_pick := "name";
     arg_audio_name := None;
     arg_audio_input_dir := path_of_string "audio-input";
     arg_video_dir := path_of_string "no-such-dir";
     arg_audio_codec := None;
     arg_suffix := "_newaudio";
     arg_in_place := false;
     arg_overwrite := false;
     arg_list_audio_lengths := true |}.

Definition combine_args : Args :=
  {| arg_combine := true;
     arg_audio_file := None;
     arg_audio_dir := path_of_string "audio";
     arg_audio_pick := "latest";
     arg_audio_name := None;
     arg_audio_input_dir := path_of_string "audio-input";
     arg_video_dir := path_of_string "video";
     arg_audio_codec := None;
     arg_suffix := "_newaudio";
     arg_in_place := false;
     arg_overwrite := false;
     arg_list_audio_lengths := false |}.

End Scenario.

(* ================================================================== *)
(** * Properties *)

Unset Implicit Arguments.

(** ** Strings and paths *)

Lemma length_append (a b : string) :
  String.length (a ++ b) = (String.length a + String.length b)%nat.
Proof.
  induction a as [|c a IH]; simpl; [reflexivity | now rewrite IH].
Qed.

Lemma append_nil_r (a : string) : (a ++ "")%string = a.
Proof.
  induction a as [|c a IH]; simpl; [reflexivity | now rewrite IH].
Qed.

Lemma contains_char_append (c : ascii) (a b : string) :
  contains_char c (a ++ b) = (contains_char c a || contains_char c b)%bool.
Proof.
  induction a as [|x a IH]; simpl; [reflexivity |].
  rewrite IH. now rewrite orb_assoc.
Qed.

Lemma substring_whole (s : string) : substring 0 (String.length s) s = s.
Proof.
  induction s as [|c s IH]; simpl; [reflexivity | now rewrite IH].
Qed.

Lemma substring_cut (s : string) :
  forall i, (i <= String.length s)%nat ->
  (substring 0 i s ++ substring i (String.length s - i) s)%string = s.
Proof.
  induction s as [|c s IH]; intros [|i] Hi; simpl in *.
  - reflexivity.
  - lia.
  - now rewrite substring_whole.
  - rewrite IH by lia. reflexivity.
Qed.

Lemma rfind_dot_bound (s : string) (i : nat) :
  rfind_dot s = Some i -> (i < String.length s)%nat.
Proof.
  revert i. induction s as [|c s IH]; intros i; simpl; [discriminate |].
  destruct (rfind_dot s) as [j|].
  - intros [= <-]. specialize (IH j eq_refl). lia.
  - destruct (Ascii.eqb c "."); [intros [= <-]; lia | discriminate].
Qed.

(** The stem and the suffix cut the name in two. *)
Lemma split_ext_append (n : string) :
  (fst (split_ext n) ++ snd (split_ext n))%string = n.
Proof.
  unfold split_ext.
  destruct (rfind_dot n) as [i|] eqn:E; simpl; [| apply append_nil_r].
  destruct (Nat.ltb 0 i && Nat.ltb i (String.length n - 1))%bool; simpl;
    [| apply append_nil_r].
  apply substring_cut. apply rfind_dot_bound in E. lia.
Qed.

Lemma stem_suffix (p : Path) : (stem p ++ suffix p)%string = name p.
Proof. apply split_ext_append. Qed.

Lemma split_ext_stem_nonempty (n : string) :
  n <> "" -> fst (split_ext n) <> "".
Proof.
  intros Hn. unfold split_ext.
  destruct (rfind_dot n) as [i|]; simpl; [| exact Hn].
  destruct (Nat.ltb 0 i && Nat.ltb i (String.length n - 1))%bool eqn:B; simpl;
    [| exact Hn].
  apply andb_prop in B. destruct B as [B _]. apply Nat.ltb_lt in B.
  destruct i as [|i]; [lia |].
  destruct n as [|c n]; [congruence | simpl; discriminate].
Qed.

Lemma entry_name_parts (n : string) :
  is_entry_name n = true ->
  n <> "" /\ n <> "."
  /\ contains_char "/"%char (fst (split_ext n)) = false
  /\ contains_char "/"%char (snd (split_ext n)) = false.
Proof.
  unfold is_entry_name. intros Hn.
  apply andb_prop in Hn. destruct Hn as [Hn H3].
  apply andb_prop in Hn. destruct Hn as [H1 H2].
  apply negb_true_iff in H1, H2, H3.
  apply String.eqb_neq in H1, H2.
  rewrite <- (split_ext_append n) in H3 at 1.
  rewrite contains_char_append in H3. apply orb_false_elim in H3.
  tauto.
Qed.

(** [with_name] succeeds when the path has a name and the new name is a
    plain component. *)
Lemma with_name_ok (p : Path) (n : string) :
  name p <> "" ->
  contains_char "/"%char n = false ->
  n <> "" -> n <> "." ->
  with_name p n = Ok (mkPath (is_abs p) (removelast (parts p) ++ [n])).
Proof.
  intros Hp Hsep H1 H2. unfold with_name.
  apply String.eqb_neq in Hp, H1, H2. now rewrite Hp, Hsep, H1, H2.
Qed.

Lemma length_zero_empty (s : string) : String.length s = 0%nat -> s = "".
Proof. destruct s; simpl; [reflexivity | discriminate]. Qed.

(** The name [stem + middle + suffix] of an output is a plain component. *)
Lemma output_name_plain (n middle : string) :
  is_entry_name n = true ->
  contains_char "/"%char middle = false ->
  let n' := (fst (split_ext n) ++ middle ++ snd (split_ext n))%string in
  contains_char "/"%char n' = false /\ n' <> "" /\ n' <> ".".
Proof.
  intros Hn Hm n'.
  destruct (entry_name_parts n Hn) as (Hne & Hdot & Hs1 & Hs2).
  pose proof (split_ext_stem_nonempty n Hne) as Hstem.
  pose proof (split_ext_append n) as Hcut.
  subst n'. repeat split.
  - rewrite !contains_char_append, Hs1, Hm, Hs2. reflexivity.
  - destruct (fst (split_ext n)); [congruence | discriminate].
  - intros E. pose proof (f_equal String.length E) as L.
    rewrite !length_append in L. simpl in L.
    assert (String.length (fst (split_ext n)) <> 0%nat) as Hl
      by (intros Hz; apply length_zero_empty in Hz; congruence).
    assert (middle = "") as Hmid by (apply length_zero_empty; lia).
    assert (snd (split_ext n) = "") as Hsuf by (apply length_zero_empty; lia).
    rewrite Hsuf, append_nil_r in Hcut.
    rewrite Hmid, Hsuf in E. simpl in E. rewrite append_nil_r in E.
    congruence.
Qed.

Lemma name_of_sibling (a : bool) (l : list string) (n : string) :
  name (mkPath a (l ++ [n])) = n.
Proof. unfold name; simpl. apply last_last. Qed.

Lemma parent_of_sibling (a : bool) (l : list string) (n : string) :
  parent (mkPath a (l ++ [n])) = mkPath a l.
Proof. unfold parent; simpl. now rewrite removelast_last. Qed.

Lemma path_with_own_name (p : Path) :
  name p <> "" ->
  p = mkPath (is_abs p) (removelast (parts p) ++ [name p]).
Proof.
  intros Hn. destruct p as [a l]; simpl. unfold name in *; simpl in *.
  f_equal. apply app_removelast_last.
  intros ->. simpl in Hn. congruence.
Qed.

(* ================================================================== *)
(** ** Output paths *)

Lemma build_output_path_ok (video_path : Path) (middle sfx : string) (in_place : bool) :
  is_entry_name (name video_path) = true ->
  middle = (if in_place then "_tmp" else sfx) ->
  contains_char "/"%char middle = false ->
  build_output_path video_path sfx in_place =
    Ok (mkPath (is_abs video_path)
          (removelast (parts video_path)
             ++ [(stem video_path ++ middle ++ suffix video_path)%string])).
Proof.
  intros Hn -> Hm.
  destruct (output_name_plain (name video_path) _ Hn Hm) as (Hsep & Hne & Hdot).
  destruct (entry_name_parts _ Hn) as (Hname & _).
  unfold build_output_path, stem, suffix.
  destruct in_place; now apply with_name_ok.
Qed.

(** C6.  For a video that is a directory entry, the output path is the
    sibling named [stem + "_tmp" + ext] in in-place mode, and the sibling
    named [stem + suffix + ext] otherwise, for every suffix that is a plain
    piece of a file name; the default suffix is [_newaudio]; [clip.mp4]
    with the suffix [_dub] gives [clip_dub.mp4], and [clip_tmp.mp4] in
    place. *)
Theorem build_output_path_sibling (video_path : Path) (sfx : string) :
  is_entry_name (name video_path) = true ->
  (exists out,
      build_output_path video_path sfx true = Ok out
      /\ parent out = parent video_path
      /\ name out = (stem video_path ++ "_tmp" ++ suffix video_path)%string)
  /\ (contains_char "/"%char sfx = false ->
      exists out,
        build_output_path video_path sfx false = Ok out
        /\ parent out = parent video_path
        /\ name out = (stem video_path ++ sfx ++ suffix video_path)%string)
  /\ arg_suffix default_args = "_newaudio"
  /\ build_output_path (path_of_string "clip.mp4") "_dub" false
     = Ok (path_of_string "clip_dub.mp4")
  /\ build_output_path (path_of_string "clip.mp4") "_dub" true
     = Ok (path_of_string "clip_tmp.mp4").
Proof.
  intros Hn. split; [| split; [| repeat split]].
  - eexists. split; [apply (build_output_path_ok video_path "_tmp" sfx true Hn eq_refl eq_refl) |].
    split; [apply parent_of_sibling | apply name_of_sibling].
  - intros Hs. eexists.
    split; [apply (build_output_path_ok video_path sfx sfx false Hn eq_refl Hs) |].
    split; [apply parent_of_sibling | apply name_of_sibling].
Qed.

Lemma build_output_path_sibling_witness :
  is_entry_name (name (path_of_string "video/clip.mp4")) = true
  /\ (exists out,
        build_output_path (path_of_string "video/clip.mp4") "_dub" true = Ok out
        /\ parent out = parent (path_of_string "video/clip.mp4")
        /\ name out = "clip_tmp.mp4")
  /\ (exists out,
        build_output_path (path_of_string "video/clip.mp4") "_dub" false = Ok out
        /\ parent out = parent (path_of_string "video/clip.mp4")
        /\ name out = "clip_dub.mp4").
Proof.
  pose proof (build_output_path_sibling (path_of_string "video/clip.mp4") "_dub"
                eq_refl) as (Hip & Hsfx & _).
  split; [reflexivity |]. split; [exact Hip | exact (Hsfx eq_refl)].
Defined.

(** In in-place mode the temporary output is never the video itself. *)
Lemma tmp_output_differs (video_path out : Path) (sfx : string) :
  build_output_path video_path sfx true = Ok out -> out <> video_path.
Proof.
  unfold build_output_path, with_name.
  destruct (String.eqb (name video_path) ""); [discriminate |].
  match goal with |- context [if ?b then _ else _] => destruct b end;
    [discriminate |].
  intros [= <-] E.
  apply (f_equal name) in E. rewrite name_of_sibling in E.
  apply (f_equal String.length) in E.
  pose proof (f_equal String.length (stem_suffix video_path)) as L.
  rewrite !length_append in E, L. simpl in E. lia.
Qed.

(* ================================================================== *)
(** ** Codec choice *)

(** C7.  Without an override the codec comes from the extension of the
    output path, lower-cased: [.webm] gives opus, [.mp4], [.mov], [.m4v]
    and [.mkv] give aac, [.avi] gives mp3, anything else gives aac; two
    paths whose extensions differ by case only get the same codec. *)
Theorem codec_inferred_from_extension (output_path : Path) :
  resolve_audio_codec None output_path = choose_audio_codec_for_path output_path
  /\ (lower (suffix output_path) = ".webm" ->
      choose_audio_codec_for_path output_path = "opus")
  /\ (In (lower (suffix output_path)) [".mp4"; ".mov"; ".m4v"; ".mkv"] ->
      choose_audio_codec_for_path output_path = "aac")
  /\ (lower (suffix output_path) = ".avi" ->
      choose_audio_codec_for_path output_path = "mp3")
  /\ (~ In (lower (suffix output_path))
          [".webm"; ".mp4"; ".mov"; ".m4v"; ".mkv"; ".avi"] ->
      choose_audio_codec_for_path output_path = "aac")
  /\ (forall other : Path,
        lower (suffix other) = lower (suffix output_path) ->
        choose_audio_codec_for_path other = choose_audio_codec_for_path output_path).
Proof.
  unfold choose_audio_codec_for_path.
  split; [reflexivity |].
  split; [intros ->; reflexivity |].
  split.
  { simpl. intros [<- | [<- | [<- | [<- | []]]]]; reflexivity. }
  split; [intros ->; reflexivity |].
  split.
  - intros Hn.
    destruct (String.eqb_spec (lower (suffix output_path)) ".webm") as [E|_];
      [exfalso; apply Hn; rewrite E; simpl; tauto |].
    destruct (String.eqb_spec (lower (suffix output_path)) ".avi") as [E|_];
      [exfalso; apply Hn; rewrite E; simpl; tauto |].
    match goal with |- (if ?b then _ else _) = _ => destruct b end; reflexivity.
  - intros other ->. reflexivity.
Qed.

Lemma codec_inferred_from_extension_witness :
  choose_audio_codec_for_path (path_of_string "video/a_newaudio.WebM") = "opus"
  /\ choose_audio_codec_for_path (path_of_string "video/b_newaudio.MKV") = "aac"
  /\ choose_audio_codec_for_path (path_of_string "video/c_newaudio.avi") = "mp3"
  /\ choose_audio_codec_for_path (path_of_string "video/d_newaudio.xyz") = "aac"
  /\ choose_audio_codec_for_path (path_of_string "video/e.MP4")
     = choose_audio_codec_for_path (path_of_string "video/e.mp4").
Proof.
  split; [| split; [| split; [| split]]].
  - destruct (codec_inferred_from_extension (path_of_string "video/a_newaudio.WebM"))
      as (_ & Hwebm & _).
    apply Hwebm. reflexivity.
  - destruct (codec_inferred_from_extension (path_of_string "video/b_newaudio.MKV"))
      as (_ & _ & Haac & _).
    apply Haac. simpl. tauto.
  - destruct (codec_inferred_from_extension (path_of_string "video/c_newaudio.avi"))
      as (_ & _ & _ & Havi & _).
    apply Havi. reflexivity.
  - destruct (codec_inferred_from_extension (path_of_string "video/d_newaudio.xyz"))
      as (_ & _ & _ & _ & Hother & _).
    apply Hother. simpl.
    intros [E | [E | [E | [E | [E | [E | []]]]]]]; discriminate E.
  - destruct (codec_inferred_from_extension (path_of_string "video/e.mp4"))
      as (_ & _ & _ & _ & _ & Hcase).
    apply Hcase. reflexivity.
Defined.

(* ================================================================== *)
(** ** Truncation to the shortest stream *)

(** The flag sits between the fixed part of the command and the output. *)
Lemma transcode_cmd_shortest (video_path audio_path output_path : Path)
  (codec : string) (shortest force : bool) :
  transcode_cmd video_path audio_path output_path codec shortest force
  = removelast (transcode_cmd video_path audio_path output_path codec false force)
    ++ (if shortest then ["-shortest"] else []) ++ [str output_path].
Proof. unfold transcode_cmd. destruct shortest, force; reflexivity. Qed.

(* ================================================================== *)
(** ** Formatting a duration *)

Lemma round_half_even_near (n d : Z) :
  0 <= n -> 0 < d ->
  0 <= round_half_even n d
  /\ - d <= 2 * (round_half_even n d * d - n) <= d.
Proof.
  intros Hn Hd. unfold round_half_even.
  pose proof (Z.div_mod n d ltac:(lia)) as E.
  pose proof (Z.mod_pos_bound n d Hd) as B.
  pose proof (Z.div_pos n d Hn Hd) as Q.
  set (q := n / d) in *. set (r := n mod d) in *.
  assert (forall t, t * d - n = (t - q) * d - r) as Diff by (intros t; lia).
  destruct (Z.ltb_spec (2 * r) d); [| destruct (Z.ltb_spec d (2 * r));
                                       [| destruct (Z.even q)]];
    rewrite Diff; (split; [lia |]);
    try replace (q - q) with 0 by lia;
    try replace (q + 1 - q) with 1 by lia; lia.
Qed.

(** [round] of a positive finite float is a nearest integer. *)
Lemma round_scaled_nearest (m : positive) (e : Z) :
  0 <= round_scaled 1 m e
  /\ (Qabs (inject_Z (round_scaled 1 m e) - sf_value m e) <= 1 # 2)%Q.
Proof.
  unfold round_scaled, sf_value.
  destruct e as [|k|k].
  - change (0 <=? 0) with true. cbv iota. change (2 ^ 0) with 1.
    split; [lia |]. apply Qabs_Qle_condition.
    unfold Qle, Qminus, Qplus, Qopp, inject_Z; cbn [Qnum Qden]. lia.
  - change (0 <=? Z.pos k) with true. cbv iota.
    assert (0 < 2 ^ Z.pos k) by (apply Z.pow_pos_nonneg; lia).
    set (P := 2 ^ Z.pos k) in *.
    split; [nia |]. apply Qabs_Qle_condition.
    unfold Qle, Qminus, Qplus, Qopp, inject_Z. cbn [Qnum Qden]. nia.
  - change (0 <=? Z.neg k) with false. cbv iota.
    assert (0 < 2 ^ Z.pos k) as Hd by (apply Z.pow_pos_nonneg; lia).
    change (- Z.neg k) with (Z.pos k).
    destruct (round_half_even_near (1 * Z.pos m) (2 ^ Z.pos k) ltac:(lia) Hd)
      as [H0 [Hlo Hhi]].
    split; [exact H0 |].
    set (t := round_half_even (1 * Z.pos m) (2 ^ Z.pos k)) in *.
    apply Qabs_Qle_condition.
    unfold Qle, Qminus, Qplus, Qopp, inject_Z. cbn [Qnum Qden].
    rewrite !Pos2Z.inj_mul, Pos2Z.inj_pow.
    set (P := 2 ^ Z.pos k) in *. split; nia.
Qed.

Lemma dec_nonempty (n : Z) : (1 <= String.length (dec n))%nat.
Proof.
  unfold dec. destruct (N.to_uint (Z.to_N n)); simpl; lia.
Qed.

Lemma fmt_02d_two_digits (n : Z) :
  0 <= n < 100 -> String.length (fmt_02d n) = 2%nat.
Proof.
  intros Hn.
  assert (forallb (fun k => Nat.eqb (String.length (fmt_02d (Z.of_nat k))) 2)
                  (seq 0 100) = true) as All by (vm_compute; reflexivity).
  rewrite forallb_forall in All.
  specialize (All (Z.to_nat n)).
  rewrite Z2Nat.id in All by lia.
  apply Nat.eqb_eq, All, in_seq. lia.
Qed.

Lemma fmt_02d_at_least_two (n : Z) :
  0 <= n -> (2 <= String.length (fmt_02d n))%nat.
Proof.
  intros Hn. unfold fmt_02d.
  destruct (Z.ltb_spec n 0); [lia |].
  pose proof (dec_nonempty n).
  destruct (Nat.ltb_spec (String.length (dec n)) 2); simpl; lia.
Qed.

(** C8.  For a finite input that is zero or positive, the formatter rounds
    to a nearest whole second (the result is within half a second of the
    input: it is not a truncation) and writes hours, minutes and seconds
    of that total, each padded with zeros to two digits; 3661 gives
    01:01:01 and 59.6 gives 00:01:00. *)
Theorem format_duration_rounds_then_splits (seconds : float) :
  (is_nonneg_finite seconds = true ->
   exists (total : Z) (v : Q),
     float_to_Q seconds = Some v
     /\ py_round seconds = Ok total
     /\ 0 <= total
     /\ (Qabs (inject_Z total - v) <= 1 # 2)%Q
     /\ format_duration seconds
        = Ok (fmt_02d (total / 3600) ++ ":" ++ fmt_02d (total mod 3600 / 60)
              ++ ":" ++ fmt_02d (total mod 60))%string
     /\ total = 3600 * (total / 3600) + 60 * (total mod 3600 / 60) + total mod 60
     /\ (2 <= String.length (fmt_02d (total / 3600)))%nat
     /\ String.length (fmt_02d (total mod 3600 / 60)) = 2%nat
     /\ String.length (fmt_02d (total mod 60)) = 2%nat)
  /\ format_duration 3661%float = Ok "01:01:01"
  /\ format_duration 59.6%float = Ok "00:01:00".
Proof.
  split; [| split; vm_compute; reflexivity].
  unfold is_nonneg_finite, float_to_Q, format_duration, py_round.
  intros Hfin.
  assert (forall total : Z, 0 <= total ->
            total = 3600 * (total / 3600) + 60 * (total mod 3600 / 60) + total mod 60
            /\ (2 <= String.length (fmt_02d (total / 3600)))%nat
            /\ String.length (fmt_02d (total mod 3600 / 60)) = 2%nat
            /\ String.length (fmt_02d (total mod 60)) = 2%nat) as Fields.
  { intros total Ht.
    pose proof (Z.div_mod total 3600 ltac:(lia)) as E1.
    pose proof (Z.mod_pos_bound total 3600 ltac:(lia)) as B1.
    pose proof (Z.div_mod (total mod 3600) 60 ltac:(lia)) as E2.
    pose proof (Z.mod_pos_bound (total mod 3600) 60 ltac:(lia)) as B2.
    pose proof (Z.mod_pos_bound total 60 ltac:(lia)) as B3.
    assert (total mod 60 = (total mod 3600) mod 60) as E3.
    { rewrite E1 at 1. replace (3600 * (total / 3600) + total mod 3600)
        with (total mod 3600 + (60 * (total / 3600)) * 60) by lia.
      apply Z.mod_add. lia. }
    assert (0 <= total / 3600) by (apply Z.div_pos; lia).
    assert (0 <= total mod 3600 / 60 < 60)
      by (split; [apply Z.div_pos; lia | apply Z.div_lt_upper_bound; lia]).
    repeat split.
    - lia.
    - now apply fmt_02d_at_least_two.
    - apply fmt_02d_two_digits. lia.
    - apply fmt_02d_two_digits. lia. }
  destruct (Prim2SF seconds) as [s| s | |s m e]; try discriminate.
  - exists 0, 0%Q. split; [reflexivity |]. split; [reflexivity |].
    split; [lia |]. split; [vm_compute; discriminate |].
    split; [reflexivity |]. apply Fields. lia.
  - destruct s; [discriminate |].
    destruct (round_scaled_nearest m e) as [H0 Hnear].
    exists (round_scaled 1 m e), (sf_value m e).
    split; [reflexivity |]. split; [reflexivity |].
    split; [exact H0 |]. split; [exact Hnear |].
    split; [reflexivity |]. now apply Fields.
Qed.

Lemma format_duration_rounds_then_splits_witness :
  is_nonneg_finite 59.6%float = true
  /\ exists (total : Z) (v : Q),
       float_to_Q 59.6%float = Some v
       /\ py_round 59.6%float = Ok total
       /\ (Qabs (inject_Z total - v) <= 1 # 2)%Q
       /\ format_duration 59.6%float
          = Ok (fmt_02d (total / 3600) ++ ":" ++ fmt_02d (total mod 3600 / 60)
                ++ ":" ++ fmt_02d (total mod 60))%string.
Proof.
  split; [vm_compute; reflexivity |].
  destruct (format_duration_rounds_then_splits 59.6%float) as [Hgen _].
  destruct (Hgen ltac:(vm_compute; reflexivity))
    as (total & v & Hv & Hr & _ & Hnear & Hfmt & _).
  exists total, v. repeat split; assumption.
Defined.

(* ================================================================== *)
(** ** The script on any host *)

Section ScriptProperties.

Context {World : Type} (H : Host World).

(** *** Probing *)

Lemma ffprobe_duration_parsed (p : Path) (w w' : World) (out : string) (d : float) :
  spawn H (ffprobe_cmd p) w = (Exited 0 out, w') ->
  py_float H (py_strip H out) = Some d ->
  ffprobe_duration H p w = (Ok d, w').
Proof.
  intros Hs Hf. unfold ffprobe_duration, bind, subprocess_check_output.
  rewrite Hs. simpl. now rewrite Hf.
Qed.

Lemma ffprobe_duration_tool_error (p : Path) (w w' : World) (rc : Z) (out : string) :
  spawn H (ffprobe_cmd p) w = (Exited rc out, w') ->
  rc <> 0 ->
  ffprobe_duration H p w = (Raise (CalledProcessError rc (ffprobe_cmd p)), w').
Proof.
  intros Hs Hrc. unfold ffprobe_duration, bind, subprocess_check_output.
  rewrite Hs. apply Z.eqb_neq in Hrc. now rewrite Hrc.
Qed.

Lemma ffprobe_duration_unparseable (p : Path) (w w' : World) (out : string) :
  spawn H (ffprobe_cmd p) w = (Exited 0 out, w') ->
  py_float H (py_strip H out) = None ->
  ffprobe_duration H p w =
    (Raise (SystemExit ("Could not parse duration for " ++ str p ++ ": "
                        ++ py_strip H out)), w').
Proof.
  intros Hs Hf. unfold ffprobe_duration, bind, subprocess_check_output.
  rewrite Hs. simpl. now rewrite Hf.
Qed.

(** *** One video *)

(** Once the probe has answered and the output path is free to use, the
    rest of the step is the transcode and, in place, the replacement. *)
Lemma process_video_transcode (args : Args) (audio_path : Path)
  (audio_duration : float) (video_path : Path) (w w1 : World)
  (video_duration : float) (out : Path) :
  ffprobe_duration H video_path w = (Ok video_duration, w1) ->
  build_output_path video_path (arg_suffix args) (arg_in_place args) = Ok out ->
  (path_exists H out w1 && negb (arg_overwrite args))%bool = false ->
  process_video H args audio_path audio_duration video_path w =
    bind
      (run H (transcode_cmd video_path audio_path out
                (resolve_audio_codec (arg_audio_codec args) out)
                (use_shortest audio_duration video_duration)
                (arg_overwrite args || arg_in_place args)) true)
      (fun _ => if arg_in_place args then os_replace H out video_path else ret tt)
      w1.
Proof.
  intros Hp Hb He. unfold process_video.
  unfold bind at 1. rewrite Hp.
  unfold bind at 1, lift. rewrite Hb.
  unfold bind at 1, read. rewrite He. reflexivity.
Qed.

(** C3.  [-shortest] is requested exactly when the audio duration is
    greater than the video duration plus 0.01, in the binary64 arithmetic
    of the script: for a video whose probe answered and whose output path
    may be written, the command the step runs is the fixed part, then
    [-shortest] if and only if that comparison holds, then the output
    path; 10.005 against 10.00 does not request it, 10.02 against 10.00
    does. *)
Theorem shortest_iff_audio_longer (args : Args) (audio_path : Path)
  (audio_duration : float) (video_path : Path) (w w1 : World)
  (video_duration : float) (out : Path) :
  ffprobe_duration H video_path w = (Ok video_duration, w1) ->
  build_output_path video_path (arg_suffix args) (arg_in_place args) = Ok out ->
  (path_exists H out w1 && negb (arg_overwrite args))%bool = false ->
  let codec := resolve_audio_codec (arg_audio_codec args) out in
  let force := (arg_overwrite args || arg_in_place args)%bool in
  let longer :=
    PrimFloat.ltb (PrimFloat.add video_duration 0.01%float) audio_duration in
  (use_shortest audio_duration video_duration = true <-> longer = true)
  /\ process_video H args audio_path audio_duration video_path w
     = bind
         (run H (removelast (transcode_cmd video_path audio_path out codec false force)
                 ++ (if longer then ["-shortest"] else []) ++ [str out]) true)
         (fun _ => if arg_in_place args then os_replace H out video_path else ret tt)
         w1
  /\ use_shortest 10.005%float 10.00%float = false
  /\ use_shortest 10.02%float 10.00%float = true.
Proof.
  intros Hp Hb He codec force longer.
  split; [reflexivity |].
  split; [| split; vm_compute; reflexivity].
  rewrite (process_video_transcode args audio_path audio_duration video_path
             w w1 video_duration out Hp Hb He).
  fold codec force.
  now rewrite (transcode_cmd_shortest video_path audio_path out codec
                 (use_shortest audio_duration video_duration) force).
Qed.

(** *** The loop *)

Lemma process_all_next (args : Args) (audio_path : Path) (audio_duration : float)
  (video_path : Path) (rest : list Path) (failures : list (Path * string))
  (w w' : World) :
  process_video H args audio_path audio_duration video_path w = (Ok tt, w') ->
  process_all H args audio_path audio_duration (video_path :: rest) failures w
  = process_all H args audio_path audio_duration rest failures w'.
Proof. intros E. simpl. now rewrite E. Qed.

(** A failure that derives from [Exception] is recorded with the path and
    the message, and once the line about it is printed the loop goes on
    with the next video. *)
Lemma process_all_caught (args : Args) (audio_path : Path) (audio_duration : float)
  (video_path : Path) (rest : list Path) (failures : list (Path * string))
  (w w' w'' : World) (exc : exn) :
  process_video H args audio_path audio_duration video_path w = (Raise exc, w') ->
  is_Exception exc = true ->
  print H ("Failed: " ++ str video_path ++ " (" ++ exn_str H exc ++ ")") w'
  = (Ok tt, w'') ->
  process_all H args audio_path audio_duration (video_path :: rest) failures w
  = process_all H args audio_path audio_duration rest
      (failures ++ [(video_path, exn_str H exc)]) w''.
Proof. intros E Hc Hp. cbn [process_all]. now rewrite E, Hc, Hp. Qed.

(** When that line cannot be printed, the error of [print] leaves the
    loop. *)
Lemma process_all_print_fails (args : Args) (audio_path : Path)
  (audio_duration : float) (video_path : Path) (rest : list Path)
  (failures : list (Path * string)) (w w' w'' : World) (exc e : exn) :
  process_video H args audio_path audio_duration video_path w = (Raise exc, w') ->
  is_Exception exc = true ->
  print H ("Failed: " ++ str video_path ++ " (" ++ exn_str H exc ++ ")") w'
  = (Raise e, w'') ->
  process_all H args audio_path audio_duration (video_path :: rest) failures w
  = (Raise e, w'').
Proof. intros E Hc Hp. cbn [process_all]. now rewrite E, Hc, Hp. Qed.

(** A failure that does not derive from [Exception] leaves the loop. *)
Lemma process_all_escapes (args : Args) (audio_path : Path) (audio_duration : float)
  (video_path : Path) (rest : list Path) (failures : list (Path * string))
  (w w' : World) (exc : exn) :
  process_video H args audio_path audio_duration video_path w = (Raise exc, w') ->
  is_Exception exc = false ->
  process_all H args audio_path audio_duration (video_path :: rest) failures w
  = (Raise exc, w').
Proof. intros E Hc. simpl. now rewrite E, Hc. Qed.

(** The sibling path of C1: when the probing tool itself fails for a
    video, the failure is caught and, once it is printed, the batch goes
    on. *)
Lemma probe_tool_error_is_isolated (args : Args) (audio_path : Path)
  (audio_duration : float) (video_path : Path) (rest : list Path)
  (failures : list (Path * string)) (w w' w'' : World) (rc : Z) (out : string) :
  spawn H (ffprobe_cmd video_path) w = (Exited rc out, w') ->
  rc <> 0 ->
  print H ("Failed: " ++ str video_path ++ " ("
           ++ cpe_str H rc (ffprobe_cmd video_path) ++ ")") w' = (Ok tt, w'') ->
  process_all H args audio_path audio_duration (video_path :: rest) failures w
  = process_all H args audio_path audio_duration rest
      (failures ++ [(video_path, cpe_str H rc (ffprobe_cmd video_path))]) w''.
Proof.
  intros Hs Hrc Hp.
  apply (process_all_caught _ _ _ _ _ _ _ w' _
           (CalledProcessError rc (ffprobe_cmd video_path))); [| reflexivity | exact Hp].
  unfold process_video, bind at 1.
  now rewrite (ffprobe_duration_tool_error video_path w w' rc out Hs Hrc).
Qed.

(** C1, where the script departs from it.  When the probe of a video
    prints a text that is no number, [ffprobe_duration] raises
    [SystemExit]; [except Exception] does not catch it, so the loop ends
    there: nothing is recorded for the video, and the videos after it are
    not processed. *)
Theorem unparseable_probe_aborts_batch (args : Args) (audio_path : Path)
  (audio_duration : float) (video_path : Path) (rest : list Path)
  (failures : list (Path * string)) (w w' : World) (out : string) :
  spawn H (ffprobe_cmd video_path) w = (Exited 0 out, w') ->
  py_float H (py_strip H out) = None ->
  process_all H args audio_path audio_duration (video_path :: rest) failures w
  = (Raise (SystemExit ("Could not parse duration for " ++ str video_path ++ ": "
                        ++ py_strip H out)), w').
Proof.
  intros Hs Hf.
  apply process_all_escapes; [| reflexivity].
  unfold process_video, bind at 1.
  now rewrite (ffprobe_duration_unparseable video_path w w' out Hs Hf).
Qed.

(** *** In-place replacement *)

(** C2.  In in-place mode, every way through the step for one video ends
    in one of these: the probe fails, the output path cannot be built, or
    the output exists and may not be overwritten, and the world is as the
    probe left it; the transcode cannot start or returns a non-zero code,
    and the world is as that attempt left it; the transcode returns zero,
    and only then [os.replace] moves the temporary output, which is not
    the video itself, over the video. *)
Theorem in_place_replaces_only_after_success (args : Args) (audio_path : Path)
  (audio_duration : float) (video_path : Path) (w : World) :
  arg_in_place args = true ->
  let step := process_video H args audio_path audio_duration video_path w in
  match ffprobe_duration H video_path w with
  | (Raise e, w1) => step = (Raise e, w1)
  | (Ok video_duration, w1) =>
      match build_output_path video_path (arg_suffix args) true with
      | Raise e => step = (Raise e, w1)
      | Ok out =>
          out <> video_path
          /\ if (path_exists H out w1 && negb (arg_overwrite args))%bool
             then step = (Raise (RuntimeError ("Output exists: " ++ str out
                                               ++ " (use --overwrite)")), w1)
             else
               let cmd := transcode_cmd video_path audio_path out
                            (resolve_audio_codec (arg_audio_codec args) out)
                            (use_shortest audio_duration video_duration) true in
               match spawn H cmd w1 with
               | (NotStarted msg, w2) => step = (Raise (OSError msg), w2)
               | (Exited rc _, w2) =>
                   if rc =? 0 then step = os_replace H out video_path w2
                   else step = (Raise (CalledProcessError rc cmd), w2)
               end
      end
  end.
Proof.
  intros Hip step.
  destruct (ffprobe_duration H video_path w) as [[vd | e] w1] eqn:Hp.
  2: { subst step. unfold process_video, bind at 1. now rewrite Hp. }
  destruct (build_output_path video_path (arg_suffix args) true) as [out | e] eqn:Hb.
  2: { subst step. unfold process_video, bind at 1. rewrite Hp.
       unfold bind at 1, lift. now rewrite Hip, Hb. }
  split; [exact (tmp_output_differs _ _ _ Hb) |].
  destruct (path_exists H out w1 && negb (arg_overwrite args))%bool eqn:He.
  { subst step. unfold process_video, bind at 1. rewrite Hp.
    unfold bind at 1, lift. rewrite Hip, Hb.
    unfold bind at 1, read. now rewrite He. }
  rewrite <- Hip in Hb.
  subst step. rewrite (process_video_transcode args audio_path audio_duration video_path w w1 vd out Hp Hb He).
  rewrite Hip, orb_true_r.
  unfold bind, run, subprocess_run.
  destruct (spawn H _ w1) as [[rc so | msg] w2]; [| reflexivity].
  simpl. destruct (rc =? 0); reflexivity.
Qed.

(** *** Combining *)

(** C5.  When the input directory holds no [*.mp3] entry, [combine_mp3s]
    raises [SystemExit] and the world is untouched: no directory is made,
    no process is started, no file is written. *)
Theorem combine_without_fragments_fails (audio_input_dir output_path : Path)
  (w : World) :
  glob H audio_input_dir "*.mp3" w = [] ->
  combine_mp3s H audio_input_dir output_path w
  = (Raise (SystemExit ("No MP3 files found in " ++ str audio_input_dir)), w).
Proof.
  intros Hg. unfold combine_mp3s, bind, read. rewrite Hg. reflexivity.
Qed.

(** *** The audio of the run *)



Lemma main_past_checks (args : Args) (w : World) :
  arg_list_audio_lengths args = false ->
  which H "ffmpeg" w = true ->
  which H "ffprobe" w = true ->
  main H args w = bind (main_resolve_audio H args) (main_batch H args) w.
Proof.
  intros Hl H1 H2. unfold main, bind at 1, which_or_die. rewrite H1.
  unfold bind at 1. rewrite H2, Hl. reflexivity.
Qed.



(** *** The videos of the run *)

Lemma insert_sorted_In (p x : Path) (l : list Path) :
  In x (insert_sorted p l) -> x = p \/ In x l.
Proof.
  induction l as [|q r IH]; simpl.
  - intros [<- | []]. now left.
  - destruct (path_ltb p q); simpl.
    + intros [<- | Hx]; [now left | now right].
    + intros [<- | Hx]; [right; now left |].
      destruct (IH Hx) as [-> | Hr]; [now left | right; now right].
Qed.

Lemma sorted_In (x : Path) (l : list Path) : In x (sorted l) -> In x l.
Proof.
  unfold sorted.
  assert (forall acc, In x (fold_left (fun acc p => insert_sorted p acc) l acc) ->
                      In x acc \/ In x l) as Gen.
  { induction l as [|p r IH]; intros acc; simpl; [now left |].
    intros Hx. destruct (IH _ Hx) as [Ha | Hr]; [| right; now right].
    destruct (insert_sorted_In _ _ _ Ha) as [-> | Hacc];
      [right; now left | now left]. }
  intros Hx. destruct (Gen [] Hx) as [[] | Hl]. exact Hl.
Qed.

Lemma select_videos_none (entries : list Path) :
  (forall p, In p entries -> str_in (lower (suffix p)) VIDEO_EXTS = false) ->
  select_videos entries = [].
Proof.
  intros Hnone. unfold select_videos.
  assert (forall l : list Path,
            (forall p, In p l -> str_in (lower (suffix p)) VIDEO_EXTS = false) ->
            filter (fun p => str_in (lower (suffix p)) VIDEO_EXTS) l = []) as Empty.
  { induction l as [|p r IH]; simpl; intros Hl; [reflexivity |].
    rewrite (Hl p) by now left. apply IH. intros q Hq. apply Hl. now right. }
  apply Empty. intros p Hp. apply Hnone. now apply sorted_In.
Qed.

(** C10.  Outside the listing mode and past the tool checks, once the
    audio is resolved and exists: when the video directory exists and none
    of its entries has an extension that, lower-cased, is in [VIDEO_EXTS]
    (.mp4, .mov, .mkv, .avi, .m4v, .webm), the run ends by [SystemExit]
    with the message "No video files found in ...", so with a non-zero
    status instead of a success on an empty batch, and the world is the
    one the audio resolution left: nothing was probed or transcoded. *)
Theorem no_videos_is_fatal (args : Args) (w w1 : World) (audio_path : Path)
  (entries : list Path) :
  arg_list_audio_lengths args = false ->
  which H "ffmpeg" w = true ->
  which H "ffprobe" w = true ->
  main_resolve_audio H args w = (Ok audio_path, w1) ->
  path_exists H audio_path w1 = true ->
  path_exists H (arg_video_dir args) w1 = true ->
  iterdir H (arg_video_dir args) w1 = Ok entries ->
  (forall p, In p entries -> str_in (lower (suffix p)) VIDEO_EXTS = false) ->
  VIDEO_EXTS = [".mp4"; ".mov"; ".mkv"; ".avi"; ".m4v"; ".webm"]
  /\ main H args w
     = (Raise (SystemExit ("No video files found in " ++ str (arg_video_dir args))), w1)
  /\ exit_status (fst (main H args w)) <> 0.
Proof.
  intros Hl H1 H2 Hres Ha Hv Hit Hnone.
  assert (main H args w
          = (Raise (SystemExit ("No video files found in "
                                ++ str (arg_video_dir args))), w1)) as Hmain.
  { rewrite (main_past_checks args w Hl H1 H2).
    unfold bind at 1. rewrite Hres.
    unfold main_batch, bind, read. rewrite Ha. cbn [negb].
    rewrite Hv. cbn [negb]. rewrite Hit.
    now rewrite (select_videos_none entries Hnone). }
  split; [reflexivity |]. split; [exact Hmain |].
  rewrite Hmain. simpl. lia.
Qed.

End ScriptProperties.

(* ================================================================== *)
(** ** The script on the in-memory host *)

Lemma unparseable_probe_aborts_batch_witness :
  spawn Sim.host (ffprobe_cmd Scenario.b_mkv) Scenario.second_unparseable
  = (Exited 0 ("N/A" ++ newline), Scenario.second_unparseable)
  /\ py_float Sim.host (py_strip Sim.host ("N/A" ++ newline)) = None
  /\ process_all Sim.host default_args Scenario.song 12.5%float
       [Scenario.b_mkv; Scenario.c_webm] [] Scenario.second_unparseable
     = (Raise (SystemExit "Could not parse duration for video/b.mkv: N/A"),
        Scenario.second_unparseable).
Proof.
  split; [reflexivity |]. split; [reflexivity |].
  exact (unparseable_probe_aborts_batch Sim.host default_args Scenario.song
           12.5%float Scenario.b_mkv [Scenario.c_webm] []
           Scenario.second_unparseable Scenario.second_unparseable
           ("N/A" ++ newline) eq_refl eq_refl).
Defined.

(** The whole run on three videos when the probe of the second prints
    "N/A": the first video is converted, the run ends with the parse
    message and not with a count of failures, nothing is printed for the
    second video, and the third has no output. *)
Example run_stops_at_unparseable_probe :
  let '(r, w) := main Sim.host default_args Scenario.second_unparseable in
  r = Raise (SystemExit "Could not parse duration for video/b.mkv: N/A")
  /\ Sim.data_at "video/a_newaudio.mp4" w = Some "10.0"
  /\ Sim.data_at "video/c_newaudio.webm" w = None
  /\ Sim.sw_stdout w = [].
Proof. vm_compute. repeat split. Qed.

(** The same run when the second video cannot be probed at all: the
    failure is recorded and the third video is converted. *)
Example run_continues_after_probe_error :
  let '(r, w) := main Sim.host default_args Scenario.second_corrupt in
  r = Raise (SystemExit "1 video(s) failed")
  /\ Sim.data_at "video/a_newaudio.mp4" w = Some "10.0"
  /\ Sim.data_at "video/c_newaudio.webm" w = Some "10.0"
  /\ List.length (Sim.sw_stdout w) = 1%nat.
Proof. vm_compute. repeat split. Qed.

Lemma shortest_iff_audio_longer_witness :
  ffprobe_duration Sim.host Scenario.a_mp4 Scenario.transcode_fails
  = (Ok 10.0%float, Scenario.transcode_fails)
  /\ process_video Sim.host default_args Scenario.song 10.02%float
       Scenario.a_mp4 Scenario.transcode_fails
     = bind (run Sim.host
               ["ffmpeg"; "-hide_banner"; "-stats"; "-i"; "video/a.mp4";
                "-i"; "audio/song.mp3"; "-map"; "0:v:0"; "-map"; "1:a:0";
                "-c:v"; "copy"; "-c:a"; "aac"; "-shortest";
                "video/a_newaudio.mp4"] true)
            (fun _ => ret tt) Scenario.transcode_fails
  /\ process_video Sim.host default_args Scenario.song 10.005%float
       Scenario.a_mp4 Scenario.transcode_fails
     = bind (run Sim.host
               ["ffmpeg"; "-hide_banner"; "-stats"; "-i"; "video/a.mp4";
                "-i"; "audio/song.mp3"; "-map"; "0:v:0"; "-map"; "1:a:0";
                "-c:v"; "copy"; "-c:a"; "aac";
                "video/a_newaudio.mp4"] true)
            (fun _ => ret tt) Scenario.transcode_fails.
Proof.
  split; [reflexivity |]. split.
  - destruct (shortest_iff_audio_longer Sim.host default_args Scenario.song
                10.02%float Scenario.a_mp4 Scenario.transcode_fails
                Scenario.transcode_fails 10.0%float
                (path_of_string "video/a_newaudio.mp4") eq_refl eq_refl eq_refl)
      as (_ & Hcmd & _).
    exact Hcmd.
  - destruct (shortest_iff_audio_longer Sim.host default_args Scenario.song
                10.005%float Scenario.a_mp4 Scenario.transcode_fails
                Scenario.transcode_fails 10.0%float
                (path_of_string "video/a_newaudio.mp4") eq_refl eq_refl eq_refl)
      as (_ & Hcmd & _).
    exact Hcmd.
Defined.

Lemma in_place_replaces_only_after_success_witness :
  arg_in_place Scenario.in_place_args = true
  /\ (let '(r, w) := process_video Sim.host Scenario.in_place_args Scenario.song
                       12.5%float Scenario.c_webm Scenario.transcode_fails in
      (exists cmd, r = Raise (CalledProcessError 1 cmd))
      /\ Sim.data_at "video/c.webm" w = Some "10.02"
      /\ Sim.data_at "video/c_tmp.webm" w = Some "partial")
  /\ (let '(r, w) := process_video Sim.host Scenario.in_place_args Scenario.song
                       12.5%float Scenario.a_mp4 Scenario.transcode_fails in
      r = Ok tt
      /\ Sim.data_at "video/a.mp4" w = Some "10.0"
      /\ Sim.data_at "video/a_tmp.mp4" w = None).
Proof.
  split; [reflexivity |]. split.
  - pose proof (in_place_replaces_only_after_success Sim.host
                  Scenario.in_place_args Scenario.song 12.5%float
                  Scenario.c_webm Scenario.transcode_fails eq_refl) as Hthm.
    cbv zeta in Hthm.
    remember (process_video Sim.host Scenario.in_place_args Scenario.song
                12.5%float Scenario.c_webm Scenario.transcode_fails) as step.
    clear Heqstep. vm_compute in Hthm. destruct Hthm as [_ ->].
    split; [eexists; reflexivity |]. split; reflexivity.
  - pose proof (in_place_replaces_only_after_success Sim.host
                  Scenario.in_place_args Scenario.song 12.5%float
                  Scenario.a_mp4 Scenario.transcode_fails eq_refl) as Hthm.
    cbv zeta in Hthm.
    remember (process_video Sim.host Scenario.in_place_args Scenario.song
                12.5%float Scenario.a_mp4 Scenario.transcode_fails) as step.
    clear Heqstep. vm_compute in Hthm. destruct Hthm as [_ ->].
    split; [reflexivity |]. split; reflexivity.
Defined.

Lemma combine_without_fragments_fails_witness :
  glob Sim.host (path_of_string "audio-input") "*.mp3" Scenario.nothing_to_combine = []
  /\ (let '(r, w) := combine_mp3s Sim.host (path_of_string "audio-input")
                       (path_of_string "audio/2024.01.02-03.04.05.mp3")
                       Scenario.nothing_to_combine in
      r = Raise (SystemExit "No MP3 files found in audio-input")
      /\ path_exists Sim.host (path_of_string "audio/2024.01.02-03.04.05.mp3") w = false
      /\ path_exists Sim.host (path_of_string "audio") w = false).
Proof.
  split; [reflexivity |].
  rewrite (combine_without_fragments_fails Sim.host (path_of_string "audio-input")
             (path_of_string "audio/2024.01.02-03.04.05.mp3")
             Scenario.nothing_to_combine eq_refl).
  split; [reflexivity |]. split; reflexivity.
Defined.

(** The whole run when there is no audio to pick and nothing to combine:
    it ends with the message of [combine_mp3s], and neither the combined
    file nor the audio directory is created. *)
Example run_without_fragments :
  let '(r, w) := main Sim.host default_args Scenario.nothing_to_combine in
  r = Raise (SystemExit "No MP3 files found in audio-input")
  /\ w = Scenario.nothing_to_combine.
Proof. vm_compute. split; reflexivity. Qed.



(** The run with the explicit audio file: no selection error although no
    name is given, no combined file although [--combine] is set, and the
    transcode reads [music/x.mp3]. *)
Example run_with_explicit_audio :
  let '(r, w) := main Sim.host Scenario.explicit_audio_args Scenario.explicit_audio in
  r = Ok tt
  /\ Sim.data_at "video/a_newaudio.mp4" w = Some "10.0"
  /\ List.length (Sim.sw_files w) = 4%nat
  /\ fst (pick_mp3 Sim.host Scenario.audio "name" None Scenario.explicit_audio)
     = Raise (SystemExit "--audio-name is required when using --audio-pick name").
Proof. vm_compute. repeat split. Qed.

Lemma no_videos_is_fatal_witness :
  iterdir Sim.host (path_of_string "video") Scenario.no_videos
  = Ok [path_of_string "video/notes.txt"; path_of_string "video/cover.jpg"]
  /\ main Sim.host default_args Scenario.no_videos
     = (Raise (SystemExit "No video files found in video"), Scenario.no_videos)
  /\ exit_status (fst (main Sim.host default_args Scenario.no_videos)) <> 0.
Proof.
  assert (forall p,
            In p [path_of_string "video/notes.txt"; path_of_string "video/cover.jpg"] ->
            str_in (lower (suffix p)) VIDEO_EXTS = false) as Hnone
    by (intros p [<- | [<- | []]]; reflexivity).
  destruct (no_videos_is_fatal Sim.host default_args Scenario.no_videos
              Scenario.no_videos Scenario.song
              [path_of_string "video/notes.txt"; path_of_string "video/cover.jpg"]
              eq_refl eq_refl eq_refl eq_refl eq_refl eq_refl eq_refl Hnone)
    as (_ & Hmain & Hexit).
  split; [reflexivity |]. split; assumption.
Defined.

(* ================================================================== *)
(** * Further properties *)

(** ** The order of paths and [sorted] *)

Lemma str_compare_refl (x : string) : String.compare x x = Eq.
Proof. apply String_as_OT.cmp_eq. reflexivity. Qed.

Lemma str_compare_lt_trans (x y z : string) :
  String.compare x y = Lt -> String.compare y z = Lt -> String.compare x z = Lt.
Proof.
  intros Hxy Hyz. apply String_as_OT.cmp_lt.
  apply String_as_OT.cmp_lt in Hxy, Hyz.
  exact (String_as_OT.lt_trans x y z Hxy Hyz).
Qed.

Lemma str_compare_gt_lt (x y : string) :
  String.compare x y = Gt -> String.compare y x = Lt.
Proof.
  intros Hxy. rewrite String.compare_antisym, Hxy. reflexivity.
Qed.

Lemma parts_ltb_irrefl (a : list string) : parts_ltb a a = false.
Proof.
  induction a as [|x a IH]; simpl; [reflexivity |].
  now rewrite str_compare_refl.
Qed.

Lemma parts_ltb_trans (a : list string) :
  forall b c, parts_ltb a b = true -> parts_ltb b c = true -> parts_ltb a c = true.
Proof.
  induction a as [|x a IH]; intros [|y b] [|z c]; simpl; try discriminate;
    try reflexivity.
  destruct (String.compare x y) eqn:Exy; try discriminate;
    destruct (String.compare y z) eqn:Eyz; try discriminate; intros Hab Hbc.
  - apply String.compare_eq_iff in Exy, Eyz. subst.
    rewrite str_compare_refl. now apply (IH b c).
  - apply String.compare_eq_iff in Exy. subst. now rewrite Eyz.
  - apply String.compare_eq_iff in Eyz. subst. now rewrite Exy.
  - now rewrite (str_compare_lt_trans x y z Exy Eyz).
Qed.

Lemma parts_ltb_total (a : list string) :
  forall b, parts_ltb a b = false -> parts_ltb b a = false -> a = b.
Proof.
  induction a as [|x a IH]; intros [|y b]; simpl; try discriminate;
    try reflexivity.
  destruct (String.compare x y) eqn:Exy; try discriminate.
  - apply String.compare_eq_iff in Exy. subst. rewrite str_compare_refl.
    intros Hab Hba. f_equal. now apply IH.
  - rewrite (str_compare_gt_lt x y Exy). discriminate.
Qed.

(** [p <= q] in the order of paths: [q] is not before [p]. *)
Lemma path_le_trans (p q r : Path) :
  path_ltb q p = false -> path_ltb r q = false -> path_ltb r p = false.
Proof.
  unfold path_ltb. intros Hqp Hrq.
  destruct (parts_ltb (cparts r) (cparts p)) eqn:Hrp; [| reflexivity].
  destruct (parts_ltb (cparts p) (cparts q)) eqn:Hpq.
  - now rewrite (parts_ltb_trans _ _ _ Hrp Hpq) in Hrq.
  - rewrite (parts_ltb_total _ _ Hpq Hqp) in Hrp. congruence.
Qed.

Lemma path_ltb_asym (p q : Path) : path_ltb p q = true -> path_ltb q p = false.
Proof.
  unfold path_ltb. intros Hpq.
  destruct (parts_ltb (cparts q) (cparts p)) eqn:Hqp; [| reflexivity].
  pose proof (parts_ltb_trans _ _ _ Hpq Hqp) as Hpp.
  now rewrite parts_ltb_irrefl in Hpp.
Qed.

(** Plain paths that are neither before nor after one another are the
    same path. *)
Lemma plain_path_order_total (p q : Path) :
  plain_path p = true -> plain_path q = true ->
  path_ltb p q = false -> path_ltb q p = false -> p = q.
Proof.
  unfold path_ltb, plain_path. intros Hp Hq Hpq Hqp.
  pose proof (parts_ltb_total _ _ Hpq Hqp) as E.
  destruct p as [[] lp], q as [[] lq]; unfold cparts in E; simpl in *.
  - now injection E as ->.
  - destruct lq as [|c lq]; [discriminate |].
    injection E as <- _. simpl in Hq. discriminate Hq.
  - destruct lp as [|c lp]; [discriminate |].
    injection E as -> _. simpl in Hp. discriminate Hp.
  - now subst.
Qed.

Lemma insert_sorted_perm (p : Path) (l : list Path) :
  Permutation (insert_sorted p l) (p :: l).
Proof.
  induction l as [|q r IH]; simpl; [reflexivity |].
  destruct (path_ltb p q); [reflexivity |].
  rewrite IH. apply perm_swap.
Qed.

Lemma insert_sorted_sorted (p : Path) (l : list Path) :
  StronglySorted (fun a b => path_ltb b a = false) l ->
  StronglySorted (fun a b => path_ltb b a = false) (insert_sorted p l).
Proof.
  induction l as [|q r IH]; simpl; intros Hs.
  - constructor; constructor.
  - apply StronglySorted_inv in Hs. destruct Hs as [Hr Hq].
    destruct (path_ltb p q) eqn:Hpq.
    + constructor; [constructor; assumption |].
      constructor; [now apply path_ltb_asym |].
      rewrite Forall_forall in Hq |- *. intros x Hx.
      apply (path_le_trans p q x); [now apply path_ltb_asym | now apply Hq].
    + constructor; [now apply IH |].
      rewrite Forall_forall in Hq |- *. intros x Hx.
      apply (Permutation_in _ (insert_sorted_perm p r)) in Hx.
      destruct Hx as [<- | Hx]; [exact Hpq | now apply Hq].
Qed.

Lemma sorted_fold (l : list Path) :
  forall acc,
    StronglySorted (fun a b => path_ltb b a = false) acc ->
    StronglySorted (fun a b => path_ltb b a = false)
      (fold_left (fun acc p => insert_sorted p acc) l acc)
    /\ Permutation (fold_left (fun acc p => insert_sorted p acc) l acc) (l ++ acc).
Proof.
  induction l as [|p l IH]; simpl; intros acc Hacc; [split; [assumption | reflexivity] |].
  destruct (IH (insert_sorted p acc) (insert_sorted_sorted p acc Hacc)) as [Hs Hp].
  split; [exact Hs |].
  rewrite Hp, (insert_sorted_perm p acc). symmetry. apply Permutation_middle.
Qed.

(** Two sorted lists with the same elements are the same list when the
    order tells different elements apart. *)
Lemma sorted_unique (a : list Path) :
  forall b,
    (forall p, In p a -> plain_path p = true) ->
    Permutation a b ->
    StronglySorted (fun x y => path_ltb y x = false) a ->
    StronglySorted (fun x y => path_ltb y x = false) b ->
    a = b.
Proof.
  induction a as [|x a IH]; intros b Hplain Hperm Ha Hb.
  - apply Permutation_nil in Hperm. now subst.
  - destruct b as [|y b]; [apply Permutation_sym, Permutation_nil in Hperm; discriminate |].
    apply StronglySorted_inv in Ha, Hb.
    destruct Ha as [Ha Hxa], Hb as [Hb Hyb].
    rewrite Forall_forall in Hxa, Hyb.
    assert (x = y) as ->.
    { assert (In x (y :: b)) as Hx by (apply (Permutation_in _ Hperm); now left).
      assert (In y (x :: a)) as Hy
        by (apply (Permutation_in _ (Permutation_sym Hperm)); now left).
      destruct Hx as [-> | Hx]; [reflexivity |].
      destruct Hy as [-> | Hy]; [reflexivity |].
      apply plain_path_order_total.
      - apply Hplain. now left.
      - apply Hplain. now right.
      - now apply Hyb.
      - now apply Hxa. }
    f_equal. apply IH; try assumption.
    + intros p Hp. apply Hplain. now right.
    + now apply Permutation_cons_inv in Hperm.
Qed.

(** [sorted] returns its input rearranged, each path not after the ones
    that follow it. *)
Lemma sorted_is_sorted_permutation (l : list Path) :
  Permutation (sorted l) l
  /\ StronglySorted (fun p q => path_ltb q p = false) (sorted l).
Proof.
  destruct (sorted_fold l [] (SSorted_nil _)) as [Hs Hp].
  split; [| exact Hs].
  unfold sorted. now rewrite Hp, app_nil_r.
Qed.

(** X19.  The order in which a directory is listed does not matter: two
    listings of the same plain paths sort to the same list, so the concat
    list written by [combine_mp3s] and the order of the batch are the
    same for both. *)
Theorem sorted_ignores_listing_order (l1 l2 : list Path) :
  (forall p, In p l1 -> plain_path p = true) ->
  Permutation l1 l2 ->
  sorted l1 = sorted l2
  /\ concat_manifest (sorted l1) = concat_manifest (sorted l2)
  /\ select_videos l1 = select_videos l2.
Proof.
  intros Hplain Hperm.
  assert (sorted l1 = sorted l2) as E.
  { destruct (sorted_fold l1 [] (SSorted_nil _)) as [Hs1 Hp1].
    destruct (sorted_fold l2 [] (SSorted_nil _)) as [Hs2 Hp2].
    rewrite app_nil_r in Hp1, Hp2.
    apply sorted_unique; try assumption.
    - intros p Hp. apply Hplain. exact (Permutation_in _ Hp1 Hp).
    - unfold sorted. now rewrite Hp1, Hp2. }
  unfold select_videos. now rewrite E.
Qed.

Lemma sorted_ignores_listing_order_witness :
  (forall p, In p [path_of_string "in/c.mp3"; path_of_string "in/a.mp3";
                   path_of_string "in/b.mp3"] -> plain_path p = true)
  /\ sorted [path_of_string "in/c.mp3"; path_of_string "in/a.mp3";
             path_of_string "in/b.mp3"]
     = sorted [path_of_string "in/b.mp3"; path_of_string "in/c.mp3";
               path_of_string "in/a.mp3"].
Proof.
  assert (forall p, In p [path_of_string "in/c.mp3"; path_of_string "in/a.mp3";
                          path_of_string "in/b.mp3"] -> plain_path p = true) as Hplain
    by (intros p [<- | [<- | [<- | []]]]; reflexivity).
  split; [exact Hplain |].
  assert (Permutation
            [path_of_string "in/c.mp3"; path_of_string "in/a.mp3"; path_of_string "in/b.mp3"]
            [path_of_string "in/b.mp3"; path_of_string "in/c.mp3"; path_of_string "in/a.mp3"])
    as Hperm.
  { apply Permutation_sym.
    apply (perm_trans (l' := [path_of_string "in/c.mp3"; path_of_string "in/b.mp3";
                              path_of_string "in/a.mp3"])).
    - apply perm_swap.
    - apply perm_skip. apply perm_swap. }
  exact (proj1 (sorted_ignores_listing_order _ _ Hplain Hperm)).
Defined.

(* ================================================================== *)
(** ** Floats as modification times *)

Lemma SFltb_trans (a b c : spec_float) :
  SFltb a b = true -> SFltb b c = true -> SFltb a c = true.
Proof.
  unfold SFltb, SFcompare.
  destruct a as [sa|sa| |sa ma ea], b as [sb|sb| |sb mb eb], c as [sc|sc| |sc mc ec];
    try discriminate; try reflexivity;
    repeat match goal with s : bool |- _ => destruct s end;
    try discriminate; try reflexivity;
    change (PosDef.Pos.compare_cont Eq) with Pos.compare;
    intros H1 H2.
  all: destruct (Z.compare_spec ea eb), (Z.compare_spec eb ec), (Z.compare_spec ea ec);
    try lia; try discriminate; try reflexivity; subst.
  all: destruct (Pos.compare_spec ma mb), (Pos.compare_spec mb mc), (Pos.compare_spec ma mc);
    simpl in *; try lia; try discriminate; try reflexivity.
Qed.

Lemma SFltb_irrefl (a : spec_float) : SFltb a a = false.
Proof.
  unfold SFltb, SFcompare.
  destruct a as [s|s| |s m e]; try reflexivity; destruct s; try reflexivity;
    rewrite Z.compare_refl; change (PosDef.Pos.compare_cont Eq) with Pos.compare;
    rewrite Pos.compare_refl; reflexivity.
Qed.

Lemma float_ltb_trans (x y z : float) :
  PrimFloat.ltb x y = true -> PrimFloat.ltb y z = true -> PrimFloat.ltb x z = true.
Proof. rewrite !ltb_spec. apply SFltb_trans. Qed.

Lemma float_ltb_irrefl (x : float) : PrimFloat.ltb x x = false.
Proof. rewrite ltb_spec. apply SFltb_irrefl. Qed.

(* ================================================================== *)
(** ** Picking the audio *)

Section PickProperties.

Context {World : Type} (H : Host World).

(** The scan of [max] and [min] with a key: when [better] is a strict
    order on the keys and every candidate has a key, the scan returns a
    candidate that no candidate is better than. *)
Lemma select_by_mtime_extremal (better : float -> float -> bool) (w : World) :
  (forall k, better k k = false) ->
  (forall a b c, better a b = true -> better b c = true -> better a c = true) ->
  forall rest best best_key,
    (forall p, In p rest -> exists k, st_mtime H p w = Ok k) ->
    exists sel sel_key,
      select_by_mtime H better w best best_key rest = Ok sel
      /\ ((sel = best /\ sel_key = best_key)
          \/ (In sel rest /\ st_mtime H sel w = Ok sel_key
              /\ better sel_key best_key = true))
      /\ forall p k, In p rest -> st_mtime H p w = Ok k -> better k sel_key = false.
Proof.
  intros Hirr Htr.
  induction rest as [|p rest IH]; intros best best_key Hkeys; simpl.
  - exists best, best_key. split; [reflexivity |]. split; [now left |].
    intros p k [].
  - destruct (Hkeys p (or_introl eq_refl)) as [k Hk]. rewrite Hk.
    assert (forall q, In q rest -> exists k', st_mtime H q w = Ok k') as Hrest
      by (intros q Hq; apply Hkeys; now right).
    destruct (better k best_key) eqn:Hb.
    + destruct (IH p k Hrest) as (sel & sk & Hsel & Hwhere & Hmax).
      exists sel, sk. split; [exact Hsel |].
      assert (sk = k \/ better sk k = true) as Hsk
        by (destruct Hwhere as [[_ ->] | (_ & _ & Hbk)]; [now left | now right]).
      split.
      * right. destruct Hwhere as [[-> ->] | (Hin & Hkey & Hbk)].
        -- split; [now left |]. split; assumption.
        -- split; [now right |]. split; [assumption |].
           exact (Htr _ _ _ Hbk Hb).
      * intros q kq [<- | Hq] Hkq.
        -- rewrite Hk in Hkq. injection Hkq as <-.
           destruct Hsk as [-> | Hbk]; [apply Hirr |].
           destruct (better k sk) eqn:E; [| reflexivity].
           pose proof (Htr _ _ _ E Hbk) as Hc. rewrite Hirr in Hc. discriminate Hc.
        -- now apply (Hmax q kq).
    + destruct (IH best best_key Hrest) as (sel & sk & Hsel & Hwhere & Hmax).
      exists sel, sk. split; [exact Hsel |]. split.
      * destruct Hwhere as [Hsame | (Hin & Hkey & Hbk)];
          [now left | right; split; [now right | split; assumption]].
      * intros q kq [<- | Hq] Hkq.
        -- rewrite Hk in Hkq. injection Hkq as <-.
           destruct Hwhere as [[_ ->] | (_ & _ & Hbk)]; [exact Hb |].
           destruct (better k sk) eqn:E; [| reflexivity].
           now rewrite (Htr _ _ _ E Hbk) in Hb.
        -- now apply (Hmax q kq).
Qed.

Lemma pick_by_mtime_extremal (better : float -> float -> bool) (w : World)
  (files : list Path) :
  (forall k, better k k = false) ->
  (forall a b c, better a b = true -> better b c = true -> better a c = true) ->
  files <> [] ->
  (forall p, In p files -> exists k, st_mtime H p w = Ok k) ->
  exists sel sel_key,
    pick_by_mtime H better files w = (Ok (Some sel), w)
    /\ In sel files
    /\ st_mtime H sel w = Ok sel_key
    /\ forall p k, In p files -> st_mtime H p w = Ok k -> better k sel_key = false.
Proof.
  intros Hirr Htr Hne Hkeys.
  destruct files as [|f rest]; [congruence |].
  destruct (Hkeys f (or_introl eq_refl)) as [k0 Hk0].
  destruct (select_by_mtime_extremal better w Hirr Htr rest f k0) as
    (sel & sk & Hsel & Hwhere & Hmax).
  { intros p Hp. apply Hkeys. now right. }
  exists sel, sk. unfold pick_by_mtime. rewrite Hk0, Hsel.
  split; [reflexivity |].
  assert (better k0 sk = false) as Hfirst.
  { destruct Hwhere as [[_ ->] | (_ & _ & Hbk)]; [apply Hirr |].
    destruct (better k0 sk) eqn:E; [| reflexivity].
    pose proof (Htr _ _ _ E Hbk) as Hc. rewrite Hirr in Hc. discriminate Hc. }
  split; [destruct Hwhere as [[-> _] | (Hin & _)]; [now left | now right] |].
  split; [destruct Hwhere as [[-> ->] | (_ & Hkey & _)]; assumption |].
  intros p k [<- | Hp] Hk.
  - rewrite Hk0 in Hk. now injection Hk as <-.
  - now apply (Hmax p k).
Qed.

(** X1.  The mode and the name are looked at only when the directory has
    candidates: without any, [pick_mp3] returns nothing for every mode and
    name, even a mode it does not know; with candidates, an unknown mode
    and the mode [name] without a name end the run. *)
Theorem pick_mp3_validates_only_with_candidates (audio_dir : Path) (w : World) :
  (mp3_files H audio_dir w = [] ->
   forall mode nm, pick_mp3 H audio_dir mode nm w = (Ok None, w))
  /\ (mp3_files H audio_dir w <> [] ->
      (forall mode nm,
         mode <> "latest" -> mode <> "oldest" -> mode <> "name" ->
         pick_mp3 H audio_dir mode nm w
         = (Raise (SystemExit ("Unknown audio pick mode: " ++ mode)), w))
      /\ pick_mp3 H audio_dir "name" None w
         = (Raise (SystemExit "--audio-name is required when using --audio-pick name"), w)
      /\ pick_mp3 H audio_dir "name" (Some "") w
         = (Raise (SystemExit "--audio-name is required when using --audio-pick name"), w)).
Proof.
  split.
  - intros He mode nm. unfold pick_mp3, bind, read. now rewrite He.
  - intros Hne. unfold pick_mp3, bind, read.
    destruct (mp3_files H audio_dir w) as [|f fs]; [congruence |].
    split; [| split; reflexivity].
    intros mode nm H1 H2 H3.
    apply String.eqb_neq in H1, H2, H3. now rewrite H1, H2, H3.
Qed.

(** X2.  With candidates that all have a modification time, the mode
    [latest] returns a candidate that no candidate is newer than, and the
    mode [oldest] one that no candidate is older than; the world is left
    as it was. *)
Theorem pick_mp3_latest_oldest (audio_dir : Path) (nm : option string) (w : World) :
  mp3_files H audio_dir w <> [] ->
  (forall p, In p (mp3_files H audio_dir w) -> exists k, st_mtime H p w = Ok k) ->
  (exists sel sel_key,
      pick_mp3 H audio_dir "latest" nm w = (Ok (Some sel), w)
      /\ In sel (mp3_files H audio_dir w)
      /\ st_mtime H sel w = Ok sel_key
      /\ forall p k, In p (mp3_files H audio_dir w) -> st_mtime H p w = Ok k ->
                     PrimFloat.ltb sel_key k = false)
  /\ (exists sel sel_key,
        pick_mp3 H audio_dir "oldest" nm w = (Ok (Some sel), w)
        /\ In sel (mp3_files H audio_dir w)
        /\ st_mtime H sel w = Ok sel_key
        /\ forall p k, In p (mp3_files H audio_dir w) -> st_mtime H p w = Ok k ->
                       PrimFloat.ltb k sel_key = false).
Proof.
  intros Hne Hkeys. unfold pick_mp3, bind, read.
  destruct (mp3_files H audio_dir w) as [|f fs] eqn:Hfiles; [congruence |].
  change (String.eqb "latest" "latest") with true.
  change (String.eqb "oldest" "latest") with false.
  change (String.eqb "oldest" "oldest") with true.
  cbv iota. split.
  - apply (pick_by_mtime_extremal (fun k best => PrimFloat.ltb best k) w (f :: fs));
      try assumption.
    + apply float_ltb_irrefl.
    + intros a b c Hab Hbc. exact (float_ltb_trans c b a Hbc Hab).
  - apply (pick_by_mtime_extremal (fun k best => PrimFloat.ltb k best) w (f :: fs));
      try assumption.
    + apply float_ltb_irrefl.
    + intros a b c Hab Hbc. exact (float_ltb_trans a b c Hab Hbc).
Qed.

End PickProperties.

Lemma pick_mp3_validates_only_with_candidates_witness :
  mp3_files Sim.host Scenario.audio Scenario.nothing_to_combine = []
  /\ pick_mp3 Sim.host Scenario.audio "newest" None Scenario.nothing_to_combine
     = (Ok None, Scenario.nothing_to_combine)
  /\ mp3_files Sim.host Scenario.audio Scenario.three_ages <> []
  /\ pick_mp3 Sim.host Scenario.audio "newest" None Scenario.three_ages
     = (Raise (SystemExit "Unknown audio pick mode: newest"), Scenario.three_ages).
Proof.
  destruct (pick_mp3_validates_only_with_candidates Sim.host Scenario.audio
              Scenario.nothing_to_combine) as [Hempty _].
  destruct (pick_mp3_validates_only_with_candidates Sim.host Scenario.audio
              Scenario.three_ages) as [_ Hsome].
  assert (mp3_files Sim.host Scenario.audio Scenario.three_ages <> []) as Hne
    by (vm_compute; discriminate).
  split; [reflexivity |]. split; [exact (Hempty eq_refl "newest" None) |].
  split; [exact Hne |].
  destruct (Hsome Hne) as [Hmode _].
  apply Hmode; discriminate.
Defined.

Lemma pick_mp3_latest_oldest_witness :
  mp3_files Sim.host Scenario.audio Scenario.three_ages <> []
  /\ (forall p, In p (mp3_files Sim.host Scenario.audio Scenario.three_ages) ->
                exists k, st_mtime Sim.host p Scenario.three_ages = Ok k)
  /\ (exists sel sel_key,
        pick_mp3 Sim.host Scenario.audio "latest" None Scenario.three_ages
        = (Ok (Some sel), Scenario.three_ages)
        /\ st_mtime Sim.host sel Scenario.three_ages = Ok sel_key
        /\ PrimFloat.ltb sel_key 7%float = false).
Proof.
  assert (mp3_files Sim.host Scenario.audio Scenario.three_ages <> []) as Hne
    by (vm_compute; discriminate).
  assert (forall p, In p (mp3_files Sim.host Scenario.audio Scenario.three_ages) ->
                    exists k, st_mtime Sim.host p Scenario.three_ages = Ok k) as Hkeys.
  { intros p Hp. vm_compute in Hp.
    destruct Hp as [<- | [<- | [<- | []]]]; eexists; reflexivity. }
  split; [exact Hne |]. split; [exact Hkeys |].
  destruct (pick_mp3_latest_oldest Sim.host Scenario.audio None Scenario.three_ages
              Hne Hkeys) as [(sel & sk & Hpick & _ & Hkey & Hmax) _].
  exists sel, sk. split; [exact Hpick |]. split; [exact Hkey |].
  apply (Hmax (path_of_string "audio/c.mp3")).
  - vm_compute. tauto.
  - reflexivity.
Defined.

(* ================================================================== *)
(** ** Picking by name *)

Section NameProperties.

Context {World : Type} (H : Host World).

(** The mode [name] with candidates and a name, up to the look-ups. *)
Lemma pick_mp3_name_lookup (audio_dir : Path) (n : string) (w : World)
  (candidate : Path) :
  mp3_files H audio_dir w <> [] ->
  n <> "" ->
  (if negb (String.eqb (lower (suffix (joinpath audio_dir n))) ".mp3")
   then match with_suffix (joinpath audio_dir n) ".mp3" with
        | Ok mp3_candidate =>
            Ok (if path_exists H mp3_candidate w then mp3_candidate
                else joinpath audio_dir n)
        | Raise e => Raise e
        end
   else Ok (joinpath audio_dir n)) = Ok candidate ->
  pick_mp3 H audio_dir "name" (Some n) w
  = if path_exists H candidate w then (Ok (Some candidate), w)
    else match name_matches (mp3_files H audio_dir w) n with
         | [m] => (Ok (Some m), w)
         | _ :: _ :: _ =>
             (Raise (SystemExit
                       ("Multiple matches for --audio-name " ++ n ++ ": "
                        ++ String.concat ", "
                             (map name (name_matches (mp3_files H audio_dir w) n)))),
              w)
         | [] =>
             (Raise (SystemExit ("No MP3 found in " ++ str audio_dir
                                 ++ " named " ++ n)), w)
         end.
Proof.
  intros Hne Hn Hcand. unfold pick_mp3, bind at 1, read.
  destruct (mp3_files H audio_dir w) as [|f fs] eqn:Hfiles; [congruence |].
  change (String.eqb "name" "latest") with false.
  change (String.eqb "name" "oldest") with false.
  change (String.eqb "name" "name") with true. cbv iota.
  apply String.eqb_neq in Hn. rewrite Hn.
  unfold bind at 1.
  destruct (negb (String.eqb (lower (suffix (joinpath audio_dir n))) ".mp3")).
  - unfold bind at 1, lift.
    destruct (with_suffix (joinpath audio_dir n) ".mp3") as [c|e]; [| discriminate].
    injection Hcand as <-. unfold bind, read, ret.
    destruct (path_exists H c w);
      match goal with |- context [path_exists H ?q w] => destruct (path_exists H q w) end;
      try reflexivity;
      destruct (name_matches (f :: fs) n) as [|m1 [|m2 ms]]; reflexivity.
  - injection Hcand as <-. unfold bind, read, ret.
    destruct (path_exists H (joinpath audio_dir n) w); [reflexivity |].
    destruct (name_matches (f :: fs) n) as [|m1 [|m2 ms]]; reflexivity.
Qed.


(** X3.  A name that ends in [.mp3] and is an existing path is returned
    as it is: it is not compared with the candidates, and a name that
    starts with the root leaves the audio directory. *)
Theorem pick_mp3_name_direct (audio_dir : Path) (n : string) (w : World) :
  mp3_files H audio_dir w <> [] ->
  n <> "" ->
  lower (suffix (joinpath audio_dir n)) = ".mp3" ->
  path_exists H (joinpath audio_dir n) w = true ->
  pick_mp3 H audio_dir "name" (Some n) w = (Ok (Some (joinpath audio_dir n)), w)
  /\ (starts_with_sep n = true -> joinpath audio_dir n = path_of_string n).
Proof.
  intros Hne Hn Hs Hx. split.
  - rewrite (pick_mp3_name_lookup audio_dir n w (joinpath audio_dir n) Hne Hn).
    + now rewrite Hx.
    + now rewrite Hs.
  - intros Ha. unfold joinpath. now rewrite Ha.
Qed.

(** X4.  A name with another extension, or none, is looked up with its
    extension replaced by [.mp3], and that path wins when it exists, also
    over the name itself. *)
Theorem pick_mp3_name_mp3_sibling (audio_dir : Path) (n : string) (w : World)
  (mp3_candidate : Path) :
  mp3_files H audio_dir w <> [] ->
  n <> "" ->
  lower (suffix (joinpath audio_dir n)) <> ".mp3" ->
  with_suffix (joinpath audio_dir n) ".mp3" = Ok mp3_candidate ->
  path_exists H mp3_candidate w = true ->
  pick_mp3 H audio_dir "name" (Some n) w = (Ok (Some mp3_candidate), w)
  /\ name mp3_candidate = (stem (joinpath audio_dir n) ++ ".mp3")%string.
Proof.
  intros Hne Hn Hs Hw Hx. split.
  - rewrite (pick_mp3_name_lookup audio_dir n w mp3_candidate Hne Hn).
    + now rewrite Hx.
    + apply String.eqb_neq in Hs. now rewrite Hs, Hw, Hx.
  - unfold with_suffix in Hw. simpl in Hw.
    destruct (String.eqb (name (joinpath audio_dir n)) ""); [discriminate |].
    injection Hw as <-. apply name_of_sibling.
Qed.

(** X5.  When the look-ups find nothing, the candidates decide: the only
    one whose name or stem is the requested name is returned, and without
    any the run ends with a message that names the directory and the
    name. *)
Theorem pick_mp3_name_scan (audio_dir : Path) (n : string) (w : World) :
  mp3_files H audio_dir w <> [] ->
  n <> "" ->
  (lower (suffix (joinpath audio_dir n)) = ".mp3"
   \/ exists c, with_suffix (joinpath audio_dir n) ".mp3" = Ok c
                /\ path_exists H c w = false) ->
  path_exists H (joinpath audio_dir n) w = false ->
  (forall m, name_matches (mp3_files H audio_dir w) n = [m] ->
             pick_mp3 H audio_dir "name" (Some n) w = (Ok (Some m), w))
  /\ (name_matches (mp3_files H audio_dir w) n = [] ->
      pick_mp3 H audio_dir "name" (Some n) w
      = (Raise (SystemExit ("No MP3 found in " ++ str audio_dir ++ " named " ++ n)), w)).
Proof.
  intros Hne Hn Hlook Hx.
  assert (pick_mp3 H audio_dir "name" (Some n) w
          = match name_matches (mp3_files H audio_dir w) n with
            | [m] => (Ok (Some m), w)
            | _ :: _ :: _ =>
                (Raise (SystemExit
                          ("Multiple matches for --audio-name " ++ n ++ ": "
                           ++ String.concat ", "
                                (map name (name_matches (mp3_files H audio_dir w) n)))),
                 w)
            | [] =>
                (Raise (SystemExit ("No MP3 found in " ++ str audio_dir
                                    ++ " named " ++ n)), w)
            end) as Hscan.
  { rewrite (pick_mp3_name_lookup audio_dir n w (joinpath audio_dir n) Hne Hn).
    - now rewrite Hx.
    - destruct Hlook as [Hs | (c & Hc & Hcx)].
      + now rewrite Hs.
      + destruct (negb _); [| reflexivity]. now rewrite Hc, Hcx. }
  split.
  - intros m Hm. now rewrite Hscan, Hm.
  - intros Hm. now rewrite Hscan, Hm.
Qed.

End NameProperties.


Lemma pick_mp3_name_direct_witness :
  mp3_files Sim.host Scenario.audio Scenario.track_elsewhere <> []
  /\ path_exists Sim.host (joinpath Scenario.audio "/music/x.mp3")
       Scenario.track_elsewhere = true
  /\ pick_mp3 Sim.host Scenario.audio "name" (Some "/music/x.mp3")
       Scenario.track_elsewhere
     = (Ok (Some (path_of_string "/music/x.mp3")), Scenario.track_elsewhere).
Proof.
  assert (mp3_files Sim.host Scenario.audio Scenario.track_elsewhere <> []) as Hne
    by (vm_compute; discriminate).
  split; [exact Hne |]. split; [reflexivity |].
  apply (pick_mp3_name_direct Sim.host Scenario.audio "/music/x.mp3"
           Scenario.track_elsewhere Hne); [discriminate | reflexivity | reflexivity].
Defined.

Lemma pick_mp3_name_mp3_sibling_witness :
  path_exists Sim.host (path_of_string "audio/song.wav") Scenario.wav_and_mp3 = true
  /\ pick_mp3 Sim.host Scenario.audio "name" (Some "song.wav") Scenario.wav_and_mp3
     = (Ok (Some (path_of_string "audio/song.mp3")), Scenario.wav_and_mp3).
Proof.
  assert (mp3_files Sim.host Scenario.audio Scenario.wav_and_mp3 <> []) as Hne
    by (vm_compute; discriminate).
  split; [reflexivity |].
  apply (pick_mp3_name_mp3_sibling Sim.host Scenario.audio "song.wav"
           Scenario.wav_and_mp3 (path_of_string "audio/song.mp3") Hne);
    [discriminate | vm_compute; discriminate | reflexivity | reflexivity].
Defined.

Lemma pick_mp3_name_scan_witness :
  pick_mp3 Sim.host Scenario.audio "name" (Some "my.song") Scenario.dotted_stem
  = (Ok (Some (path_of_string "audio/my.song.mp3")), Scenario.dotted_stem)
  /\ pick_mp3 Sim.host Scenario.audio "name" (Some "nope") Scenario.dotted_stem
     = (Raise (SystemExit "No MP3 found in audio named nope"), Scenario.dotted_stem).
Proof.
  assert (mp3_files Sim.host Scenario.audio Scenario.dotted_stem <> []) as Hne
    by (vm_compute; discriminate).
  split.
  - apply (pick_mp3_name_scan Sim.host Scenario.audio "my.song" Scenario.dotted_stem
             Hne).
    + discriminate.
    + right. exists (path_of_string "audio/my.mp3"). split; reflexivity.
    + reflexivity.
    + reflexivity.
  - apply (pick_mp3_name_scan Sim.host Scenario.audio "nope" Scenario.dotted_stem
             Hne).
    + discriminate.
    + right. exists (path_of_string "audio/nope.mp3"). split; reflexivity.
    + reflexivity.
    + reflexivity.
Defined.

(* ================================================================== *)
(** ** Extensions of outputs *)

Lemma append_assoc (a b c : string) : ((a ++ b) ++ c)%string = (a ++ (b ++ c))%string.
Proof. induction a as [|x a IH]; simpl; [reflexivity | now rewrite IH]. Qed.

Lemma rfind_dot_none (s : string) :
  rfind_dot s = None <-> contains_char "."%char s = false.
Proof.
  induction s as [|c s IH]; simpl; [tauto |].
  destruct (rfind_dot s) as [j|].
  - split; [discriminate |]. intros Hc. apply orb_false_elim in Hc.
    destruct Hc as [_ Hc]. apply IH in Hc. discriminate Hc.
  - destruct (Ascii.eqb c "."); simpl.
    + split; discriminate.
    + split; intros _; [now apply IH | reflexivity].
Qed.

Lemma rfind_dot_split (s : string) :
  forall i, rfind_dot s = Some i ->
  exists a b, s = (a ++ String "."%char b)%string
              /\ String.length a = i /\ contains_char "."%char b = false.
Proof.
  induction s as [|c s IH]; intros i; simpl; [discriminate |].
  destruct (rfind_dot s) as [j|] eqn:E.
  - intros [= <-]. destruct (IH j eq_refl) as (a & b & -> & Hl & Hb).
    exists (String c a), b. simpl. now rewrite Hl.
  - destruct (Ascii.eqb c ".") eqn:Ec; [| discriminate].
    intros [= <-]. apply Ascii.eqb_eq in Ec. subst c.
    exists EmptyString, s. simpl. repeat split. now apply rfind_dot_none.
Qed.

Lemma rfind_dot_append (a b : string) :
  contains_char "."%char b = false ->
  rfind_dot (a ++ String "."%char b) = Some (String.length a).
Proof.
  intros Hb. induction a as [|c a IH]; simpl.
  - apply rfind_dot_none in Hb. now rewrite Hb.
  - now rewrite IH.
Qed.

Lemma substring_prefix (a b : string) : substring 0 (String.length a) (a ++ b) = a.
Proof.
  induction a as [|c a IH]; simpl; [now destruct b | now rewrite IH].
Qed.

Lemma substring_suffix (a b : string) :
  substring (String.length a) (String.length b) (a ++ b) = b.
Proof.
  induction a as [|c a IH]; simpl; [apply substring_whole | exact IH].
Qed.

(** A name [a.b] with [a] and [b] non-empty and no dot in [b] splits into
    the stem [a] and the suffix [.b]. *)
Lemma split_ext_dotted (a b : string) :
  a <> "" -> b <> "" -> contains_char "."%char b = false ->
  split_ext (a ++ String "."%char b) = (a, String "."%char b).
Proof.
  intros Ha Hb Hdot. unfold split_ext.
  rewrite (rfind_dot_append a b Hdot), length_append. simpl String.length.
  assert (Nat.ltb 0 (String.length a) = true) as ->
    by (apply Nat.ltb_lt; destruct a; [congruence | simpl; lia]).
  assert (Nat.ltb (String.length a) (String.length a + S (String.length b) - 1) = true)
    as -> by (apply Nat.ltb_lt; destruct b; [congruence | simpl; lia]).
  simpl andb. cbv iota.
  rewrite substring_prefix.
  replace (String.length a + S (String.length b) - String.length a)%nat
    with (String.length (String "."%char b)) by (simpl; lia).
  now rewrite substring_suffix.
Qed.

(** A non-empty suffix is a dot and a non-empty text without dots, after
    a non-empty stem. *)
Lemma split_ext_suffix_shape (n : string) :
  snd (split_ext n) <> "" ->
  exists b, n = (fst (split_ext n) ++ String "."%char b)%string
            /\ snd (split_ext n) = String "."%char b
            /\ fst (split_ext n) <> "" /\ b <> ""
            /\ contains_char "."%char b = false.
Proof.
  unfold split_ext.
  destruct (rfind_dot n) as [i|] eqn:E; simpl; [| congruence].
  destruct (Nat.ltb 0 i && Nat.ltb i (String.length n - 1))%bool eqn:C; simpl;
    [| congruence].
  intros _. apply andb_prop in C. destruct C as [C1 C2].
  apply Nat.ltb_lt in C1, C2.
  destruct (rfind_dot_split n i E) as (a & b & -> & Hl & Hb).
  rewrite length_append in *. simpl String.length in *. subst i.
  rewrite substring_prefix.
  replace (String.length a + S (String.length b) - String.length a)%nat
    with (String.length (String "."%char b)) by (simpl; lia).
  rewrite substring_suffix.
  exists b. repeat split; try assumption.
  - destruct a; [simpl in C1; lia | discriminate].
  - destruct b; [simpl in C2; lia | discriminate].
Qed.

Lemma build_output_path_name (video_path out : Path) (sfx : string) (in_place : bool) :
  build_output_path video_path sfx in_place = Ok out ->
  name out = (stem video_path ++ (if in_place then "_tmp" else sfx)
              ++ suffix video_path)%string
  /\ parent out = parent video_path.
Proof.
  unfold build_output_path, with_name.
  destruct in_place;
    (destruct (String.eqb (name video_path) ""); [discriminate |]);
    match goal with |- context [if ?b then _ else _] => destruct b end;
    try discriminate; intros [= <-];
    (split; [apply name_of_sibling | apply parent_of_sibling]).
Qed.

(** X6.  The output of a video with an extension has the same extension
    and the same directory, whatever the suffix option is; so the codec
    chosen for the output is the one of the video's container, and the
    output of a video of the batch is a video of a later batch. *)
Theorem output_keeps_extension (video_path out : Path) (sfx : string)
  (in_place : bool) :
  build_output_path video_path sfx in_place = Ok out ->
  suffix video_path <> "" ->
  suffix out = suffix video_path
  /\ parent out = parent video_path
  /\ choose_audio_codec_for_path out = choose_audio_codec_for_path video_path
  /\ (str_in (lower (suffix video_path)) VIDEO_EXTS = true ->
      select_videos [out] = [out]).
Proof.
  intros Hb Hext.
  destruct (build_output_path_name video_path out sfx in_place Hb) as [Hname Hparent].
  assert (suffix out = suffix video_path) as Hs.
  { unfold suffix, stem in *.
    destruct (split_ext_suffix_shape (name video_path) Hext)
      as (b & _ & Hsuf & Hstem & Hb' & Hdot).
    rewrite Hname, Hsuf, <- append_assoc.
    rewrite split_ext_dotted; try assumption; [reflexivity |].
    destruct (fst (split_ext (name video_path))); [congruence | discriminate]. }
  split; [exact Hs |]. split; [exact Hparent |].
  split; [unfold choose_audio_codec_for_path; now rewrite Hs |].
  intros Hv. unfold select_videos, sorted.
  cbn [fold_left insert_sorted filter]. now rewrite Hs, Hv.
Qed.

Lemma output_keeps_extension_witness :
  build_output_path (path_of_string "video/a.MP4") "_v1.5" false
  = Ok (path_of_string "video/a_v1.5.MP4")
  /\ suffix (path_of_string "video/a_v1.5.MP4") = ".MP4"
  /\ select_videos [path_of_string "video/a_v1.5.MP4"]
     = [path_of_string "video/a_v1.5.MP4"].
Proof.
  destruct (output_keeps_extension (path_of_string "video/a.MP4")
              (path_of_string "video/a_v1.5.MP4") "_v1.5" false eq_refl)
    as (Hs & _ & _ & Hv).
  { discriminate. }
  split; [reflexivity |]. split; [exact Hs |]. apply Hv. reflexivity.
Defined.

(** X7.  Outside the in-place mode the output is the video itself exactly
    when the suffix option is empty. *)
Theorem output_is_video_iff_empty_suffix (video_path : Path) (sfx : string) :
  is_entry_name (name video_path) = true ->
  (sfx = "" -> build_output_path video_path sfx false = Ok video_path)
  /\ (forall out, build_output_path video_path sfx false = Ok out ->
                  sfx <> "" -> out <> video_path).
Proof.
  intros Hn. split.
  - intros ->.
    rewrite (build_output_path_ok video_path "" "" false Hn eq_refl eq_refl).
    simpl. rewrite stem_suffix. f_equal. symmetry. apply path_with_own_name.
    now destruct (entry_name_parts _ Hn).
  - intros out Hb Hs E. subst out.
    destruct (build_output_path_name video_path video_path sfx false Hb) as [Hname _].
    apply (f_equal String.length) in Hname.
    rewrite <- (stem_suffix video_path) in Hname at 1.
    rewrite !length_append in Hname.
    apply Hs, length_zero_empty. lia.
Qed.

Lemma output_is_video_iff_empty_suffix_witness :
  is_entry_name (name Scenario.a_mp4) = true
  /\ build_output_path Scenario.a_mp4 "" false = Ok Scenario.a_mp4.
Proof.
  split; [reflexivity |].
  apply (output_is_video_iff_empty_suffix Scenario.a_mp4 "" eq_refl). reflexivity.
Defined.

(* ================================================================== *)
(** ** The videos of a directory *)




(* ================================================================== *)
(** ** The step for one video and the loop *)

Section BatchProperties.

Context {World : Type} (H : Host World).

Lemma build_output_path_raises (video_path : Path) (sfx : string)
  (in_place : bool) (e : exn) :
  build_output_path video_path sfx in_place = Raise e -> is_Exception e = true.
Proof.
  unfold build_output_path, with_name.
  destruct in_place;
    (destruct (String.eqb (name video_path) ""); [now intros [= <-] |]);
    match goal with |- context [if ?b then _ else _] => destruct b end;
    try discriminate; now intros [= <-].
Qed.

(** What can leave the step for one video without deriving from
    [Exception], on a host whose [os.replace] raises nothing of that
    kind: only the parse failure of the probe. *)
Lemma process_video_escape (args : Args) (audio_path : Path)
  (audio_duration : float) (video_path : Path) (w w' : World) (e : exn) :
  (forall src dst w0 e0 w1,
     os_replace H src dst w0 = (Raise e0, w1) -> is_Exception e0 = true) ->
  process_video H args audio_path audio_duration video_path w = (Raise e, w') ->
  is_Exception e = false ->
  exists out,
    spawn H (ffprobe_cmd video_path) w = (Exited 0 out, w')
    /\ py_float H (py_strip H out) = None
    /\ e = SystemExit ("Could not parse duration for " ++ str video_path ++ ": "
                       ++ py_strip H out).
Proof.
  intros Hrep. unfold process_video, bind at 1, ffprobe_duration, bind at 1,
    subprocess_check_output.
  destruct (spawn H (ffprobe_cmd video_path) w) as [[rc out | msg] w0] eqn:Hs.
  2: { intros [= <- <-]. discriminate. }
  destruct (Z.eqb_spec rc 0) as [-> | Hrc].
  2: { intros [= <- <-]. discriminate. }
  destruct (py_float H (py_strip H out)) as [vd|] eqn:Hf.
  2: { unfold raise. intros [= <- <-] _. now exists out. }
  unfold ret, bind at 1, lift.
  destruct (build_output_path video_path (arg_suffix args) (arg_in_place args))
    as [o | eb] eqn:Hb.
  2: { intros [= <- <-] He. rewrite (build_output_path_raises _ _ _ _ Hb) in He.
       discriminate. }
  unfold bind at 1, read.
  destruct (path_exists H o w0 && negb (arg_overwrite args))%bool.
  { unfold raise. intros [= <- <-]. discriminate. }
  unfold bind, run, subprocess_run.
  destruct (spawn H _ w0) as [[rc2 out2 | msg2] w2].
  2: { intros [= <- <-]. discriminate. }
  destruct (true && negb (rc2 =? 0))%bool.
  { intros [= <- <-]. discriminate. }
  destruct (arg_in_place args).
  - intros Hr He. rewrite (Hrep _ _ _ _ _ Hr) in He. discriminate.
  - unfold ret. discriminate.
Qed.

(** X9.  An existing output is kept: when the output path exists and
    [--overwrite] is not given, the step for the video fails with
    "Output exists" right after the probe and no transcode is started;
    the loop then prints the failure and, when that print succeeds,
    records it and goes on with the next video, and when it fails, ends
    with the error of the print; and [ffmpeg] is told [-y] only under
    [--overwrite] or [--in-place]. *)
Theorem existing_output_is_kept (args : Args) (audio_path : Path)
  (audio_duration : float) (video_path : Path) (w w1 : World)
  (video_duration : float) (out : Path) :
  ffprobe_duration H video_path w = (Ok video_duration, w1) ->
  build_output_path video_path (arg_suffix args) (arg_in_place args) = Ok out ->
  path_exists H out w1 = true ->
  arg_overwrite args = false ->
  let msg := ("Output exists: " ++ str out ++ " (use --overwrite)")%string in
  process_video H args audio_path audio_duration video_path w
  = (Raise (RuntimeError msg), w1)
  /\ (forall rest failures w2,
        print H ("Failed: " ++ str video_path ++ " (" ++ msg ++ ")") w1 = (Ok tt, w2) ->
        process_all H args audio_path audio_duration (video_path :: rest) failures w
        = process_all H args audio_path audio_duration rest
            (failures ++ [(video_path, msg)]) w2)
  /\ (forall rest failures e w2,
        print H ("Failed: " ++ str video_path ++ " (" ++ msg ++ ")") w1 = (Raise e, w2) ->
        process_all H args audio_path audio_duration (video_path :: rest) failures w
        = (Raise e, w2))
  /\ forall codec shortest force,
       nth_error (transcode_cmd video_path audio_path out codec shortest force) 1
       = Some "-y" <-> force = true.
Proof.
  intros Hp Hb Hx Ho msg.
  assert (process_video H args audio_path audio_duration video_path w
          = (Raise (RuntimeError msg), w1)) as Hstep.
  { unfold process_video, bind at 1. rewrite Hp.
    unfold bind at 1, lift. rewrite Hb.
    unfold bind at 1, read. now rewrite Hx, Ho. }
  split; [exact Hstep |]. split; [| split].
  - intros rest failures w2 Hprint.
    exact (process_all_caught H args audio_path audio_duration video_path rest
             failures w w1 w2 (RuntimeError msg) Hstep eq_refl Hprint).
  - intros rest failures e w2 Hprint.
    exact (process_all_print_fails H args audio_path audio_duration video_path rest
             failures w w1 w2 (RuntimeError msg) e Hstep eq_refl Hprint).
  - intros codec shortest force. unfold transcode_cmd.
    destruct shortest, force; simpl; split; congruence.
Qed.

(** The shape of what the loop returns. *)
Lemma process_all_shape (args : Args) (audio_path : Path)
  (audio_duration : float) (videos : list Path) :
  forall (failures : list (Path * string)) (w : World),
    match process_all H args audio_path audio_duration videos failures w with
    | (Ok result, _) =>
        exists added,
          result = failures ++ added
          /\ incl (map fst added) videos
          /\ (List.length added <= List.length videos)%nat
    | (Raise e, _) =>
        is_Exception e = false
        \/ exists video_path msg w0 w1,
             In video_path videos
             /\ print H ("Failed: " ++ str video_path ++ " (" ++ msg ++ ")") w0
                = (Raise e, w1)
    end.
Proof.
  induction videos as [|v rest IH]; intros failures w; cbn [process_all].
  - exists []. rewrite app_nil_r.
    split; [reflexivity |]. split; [intros x [] | simpl; lia].
  - destruct (process_video H args audio_path audio_duration v w) as [[[]|e] w1].
    + specialize (IH failures w1).
      destruct (process_all H args audio_path audio_duration rest failures w1)
        as [[result|e'] w2].
      * destruct IH as (added & -> & Hincl & Hlen).
        exists added. split; [reflexivity |].
        split; [intros x Hx; right; now apply Hincl | simpl; lia].
      * destruct IH as [He | (p & m & w0 & w3 & Hin & Hpr)]; [now left |].
        right. exists p, m, w0, w3. split; [now right | exact Hpr].
    + destruct (is_Exception e) eqn:He; [| now left].
      destruct (print H ("Failed: " ++ str v ++ " (" ++ exn_str H e ++ ")") w1)
        as [[[]|ep] wp] eqn:Hprint.
      * specialize (IH (failures ++ [(v, exn_str H e)]) wp).
        destruct (process_all H args audio_path audio_duration rest _ wp)
          as [[result|e'] w2].
        -- destruct IH as (added & -> & Hincl & Hlen).
           exists ((v, exn_str H e) :: added). rewrite <- app_assoc.
           split; [reflexivity |].
           split; [| simpl; lia].
           intros x [<- | Hx]; [now left | right; now apply Hincl].
        -- destruct IH as [He' | (p & m & w0 & w3 & Hin & Hpr)]; [now left |].
           right. exists p, m, w0, w3. split; [now right | exact Hpr].
      * right. exists v, (exn_str H e), w1, wp. split; [now left | exact Hprint].
Qed.

(** X10.  The failures the loop returns are the ones it was given
    followed by entries for videos of the batch, at most one for each; and
    an error leaves the loop only if it does not derive from [Exception]
    or was raised by the print of the failure line of a video of the
    batch. *)
Theorem process_all_outcome (args : Args) (audio_path : Path)
  (audio_duration : float) (videos : list Path) :
  forall (failures : list (Path * string)) (w : World),
    match process_all H args audio_path audio_duration videos failures w with
    | (Ok result, _) =>
        exists added,
          result = failures ++ added
          /\ incl (map fst added) videos
          /\ (List.length added <= List.length videos)%nat
    | (Raise e, _) =>
        is_Exception e = false
        \/ exists video_path msg w0 w1,
             In video_path videos
             /\ print H ("Failed: " ++ str video_path ++ " (" ++ msg ++ ")") w0
                = (Raise e, w1)
    end.
Proof.
  exact (process_all_shape args audio_path audio_duration videos).
Qed.

(** X11.  On a host whose [os.replace] raises only errors that derive
    from [Exception], the loop is left early for two reasons only: the
    probe of a video of the batch printed a text that is no number, or
    the failure line of a video of the batch could not be printed. *)
Theorem batch_aborts_only_on_unparseable_probe (args : Args) (audio_path : Path)
  (audio_duration : float) (videos : list Path) :
  (forall src dst w0 e0 w1,
     os_replace H src dst w0 = (Raise e0, w1) -> is_Exception e0 = true) ->
  forall (failures : list (Path * string)) (w w' : World) (e : exn),
    process_all H args audio_path audio_duration videos failures w = (Raise e, w') ->
    (exists video_path text,
       In video_path videos
       /\ py_float H text = None
       /\ e = SystemExit ("Could not parse duration for " ++ str video_path ++ ": "
                          ++ text))
    \/ (exists video_path msg w0,
          In video_path videos
          /\ print H ("Failed: " ++ str video_path ++ " (" ++ msg ++ ")") w0
             = (Raise e, w')).
Proof.
  intros Hrep.
  induction videos as [|v rest IH]; intros failures w w' e; cbn [process_all];
    [discriminate |].
  assert (forall fs w0,
            process_all H args audio_path audio_duration rest fs w0 = (Raise e, w') ->
            (exists video_path text,
               In video_path (v :: rest)
               /\ py_float H text = None
               /\ e = SystemExit ("Could not parse duration for " ++ str video_path
                                  ++ ": " ++ text))
            \/ (exists video_path msg w0,
                  In video_path (v :: rest)
                  /\ print H ("Failed: " ++ str video_path ++ " (" ++ msg ++ ")") w0
                     = (Raise e, w'))) as Hrest.
  { intros fs w0 Hr.
    destruct (IH _ _ _ _ Hr) as [(p & t & Hin & Hmore) | (p & m & w2 & Hin & Hpr)].
    - left. exists p, t. split; [now right | exact Hmore].
    - right. exists p, m, w2. split; [now right | exact Hpr]. }
  destruct (process_video H args audio_path audio_duration v w) as [[[]|ev] w1] eqn:Hv.
  - apply Hrest.
  - destruct (is_Exception ev) eqn:He.
    + destruct (print H ("Failed: " ++ str v ++ " (" ++ exn_str H ev ++ ")") w1)
        as [[[]|ep] wp] eqn:Hprint.
      * apply Hrest.
      * intros [= <- <-]. right. exists v, (exn_str H ev), w1.
        split; [now left | exact Hprint].
    + intros [= <- <-]. left.
      destruct (process_video_escape args audio_path audio_duration v w w1 ev
                  Hrep Hv He) as (out & _ & Hf & ->).
      exists v, (py_strip H out). split; [now left | split; [exact Hf | reflexivity]].
Qed.

(** X12.  Once the loop is reached, the run ends in one of three ways:
    normally, when the loop reports no failure; by [SystemExit] with the
    number of failures, which is at least one and at most the number of
    videos; or by the error that left the loop, which does not derive
    from [Exception] or was raised by the print of a failure line. *)
Theorem main_batch_outcome (args : Args) (audio_path : Path) (w w1 : World)
  (entries : list Path) (audio_duration : float) :
  path_exists H audio_path w = true ->
  path_exists H (arg_video_dir args) w = true ->
  iterdir H (arg_video_dir args) w = Ok entries ->
  select_videos entries <> [] ->
  ffprobe_duration H audio_path w = (Ok audio_duration, w1) ->
  match process_all H args audio_path audio_duration (select_videos entries) [] w1 with
  | (Ok [], w2) => main_batch H args audio_path w = (Ok tt, w2)
  | (Ok failures, w2) =>
      main_batch H args audio_path w
      = (Raise (SystemExit (dec (Z.of_nat (List.length failures))
                            ++ " video(s) failed")), w2)
      /\ (1 <= List.length failures <= List.length (select_videos entries))%nat
  | (Raise e, w2) =>
      main_batch H args audio_path w = (Raise e, w2)
      /\ (is_Exception e = false
          \/ exists video_path msg w0 w3,
               In video_path (select_videos entries)
               /\ print H ("Failed: " ++ str video_path ++ " (" ++ msg ++ ")") w0
                  = (Raise e, w3))
  end.
Proof.
  intros Ha Hv Hit Hne Hp.
  pose proof (process_all_shape args audio_path audio_duration
                (select_videos entries) [] w1) as Hshape.
  unfold main_batch, bind, read. rewrite Ha. cbn [negb]. rewrite Hv. cbn [negb].
  rewrite Hit.
  destruct (select_videos entries) as [|v vs] eqn:Hsel; [congruence |].
  rewrite Hp.
  destruct (process_all H args audio_path audio_duration (v :: vs) [] w1)
    as [[[|f fs]|e] w2].
  - reflexivity.
  - split; [reflexivity |].
    destruct Hshape as (added & E & _ & Hlen). simpl in E. subst added.
    simpl in *. lia.
  - split; [reflexivity | exact Hshape].
Qed.

(** X13.  Before the loop: a missing video directory ends the run; so
    does a failing probe of the audio, whatever its error, and then no
    video has been probed or converted. *)
Theorem main_batch_fatal_before_loop (args : Args) (audio_path : Path) (w : World) :
  path_exists H audio_path w = true ->
  (path_exists H (arg_video_dir args) w = false ->
   main_batch H args audio_path w
   = (Raise (SystemExit ("Video directory not found: " ++ str (arg_video_dir args))), w))
  /\ (path_exists H (arg_video_dir args) w = true ->
      (forall e, iterdir H (arg_video_dir args) w = Raise e ->
                 main_batch H args audio_path w = (Raise e, w))
      /\ forall entries e w1,
           iterdir H (arg_video_dir args) w = Ok entries ->
           select_videos entries <> [] ->
           ffprobe_duration H audio_path w = (Raise e, w1) ->
           main_batch H args audio_path w = (Raise e, w1)).
Proof.
  intros Ha. split.
  - intros Hv. unfold main_batch, bind, read. rewrite Ha. cbn [negb]. now rewrite Hv.
  - intros Hv. split.
    + intros e Hit. unfold main_batch, bind, read. rewrite Ha. cbn [negb].
      rewrite Hv. cbn [negb]. now rewrite Hit.
    + intros entries e w1 Hit Hne Hp. unfold main_batch, bind, read.
      rewrite Ha. cbn [negb]. rewrite Hv. cbn [negb]. rewrite Hit.
      destruct (select_videos entries); [congruence |]. now rewrite Hp.
Qed.

(** X20.  Outside the in-place mode the step for a video ends with the
    transcode: it returns normally exactly when [ffmpeg] returned zero, and
    the world is the one [ffmpeg] left, so nothing is moved or removed by
    the script itself. *)
Theorem without_in_place_step_ends_with_transcode (args : Args) (audio_path : Path)
  (audio_duration : float) (video_path : Path) (w w1 : World)
  (video_duration : float) (out : Path) :
  arg_in_place args = false ->
  ffprobe_duration H video_path w = (Ok video_duration, w1) ->
  build_output_path video_path (arg_suffix args) false = Ok out ->
  (path_exists H out w1 && negb (arg_overwrite args))%bool = false ->
  let cmd := transcode_cmd video_path audio_path out
               (resolve_audio_codec (arg_audio_codec args) out)
               (use_shortest audio_duration video_duration) (arg_overwrite args) in
  match spawn H cmd w1 with
  | (Exited rc _, w2) =>
      process_video H args audio_path audio_duration video_path w
      = (if rc =? 0 then Ok tt else Raise (CalledProcessError rc cmd), w2)
  | (NotStarted msg, w2) =>
      process_video H args audio_path audio_duration video_path w
      = (Raise (OSError msg), w2)
  end.
Proof.
  intros Hip Hp Hb He cmd. rewrite <- Hip in Hb.
  rewrite (process_video_transcode H args audio_path audio_duration video_path
             w w1 video_duration out Hp Hb He).
  rewrite Hip, orb_false_r. fold cmd.
  unfold bind, run, subprocess_run.
  destruct (spawn H cmd w1) as [[rc so | msg] w2]; [| reflexivity].
  simpl. destruct (rc =? 0); reflexivity.
Qed.

End BatchProperties.

(* ================================================================== *)
(** ** Combining, and the start of the run *)

Section RunProperties.

Context {World : Type} (H : Host World).

(** X14.  With fragments, once the parent of the output and the
    temporary directory are made, [combine_mp3s] writes the concat list of
    the fragments in sorted order, runs the concatenation, and removes the
    temporary directory however that went; it returns normally only when
    the concatenation returned zero.  When the parent of the output cannot
    be made, nothing else is attempted. *)
Theorem combine_mp3s_cleans_up (audio_input_dir output_path : Path) (w : World) :
  sorted (glob H audio_input_dir "*.mp3" w) <> [] ->
  (forall e w1, mkdir_parents H (parent output_path) w = (Raise e, w1) ->
                combine_mp3s H audio_input_dir output_path w = (Raise e, w1))
  /\ forall w1 tmpdir w2,
       mkdir_parents H (parent output_path) w = (Ok tt, w1) ->
       mkdtemp H w1 = (Ok tmpdir, w2) ->
       let list_path := joinpath tmpdir "concat.txt" in
       let cmd := combine_cmd list_path output_path in
       combine_mp3s H audio_input_dir output_path w
       = match write_text H list_path
                 (concat_manifest (sorted (glob H audio_input_dir "*.mp3" w))) w2 with
         | (Raise e, w3) => (Raise e, rmtree H tmpdir w3)
         | (Ok _, w3) =>
             match spawn H cmd w3 with
             | (Exited rc _, w4) =>
                 (if rc =? 0 then Ok tt else Raise (CalledProcessError rc cmd),
                  rmtree H tmpdir w4)
             | (NotStarted msg, w4) => (Raise (OSError msg), rmtree H tmpdir w4)
             end
         end.
Proof.
  intros Hne. split.
  - intros e w1 Hm. unfold combine_mp3s, bind, read.
    destruct (sorted (glob H audio_input_dir "*.mp3" w)); [congruence |].
    now rewrite Hm.
  - intros w1 tmpdir w2 Hm Ht list_path cmd.
    unfold combine_mp3s, bind at 1, read.
    destruct (sorted (glob H audio_input_dir "*.mp3" w)) as [|f fs]; [congruence |].
    unfold bind at 1. rewrite Hm. unfold with_temporary_directory. rewrite Ht.
    unfold bind at 1. fold list_path.
    destruct (write_text H list_path (concat_manifest (f :: fs)) w2) as [[[]|e] w3];
      [| reflexivity].
    unfold bind, run, subprocess_run. fold cmd.
    destruct (spawn H cmd w3) as [[rc out|msg] w4]; [| reflexivity].
    simpl. destruct (rc =? 0); reflexivity.
Qed.

(** X15.  Without [--audio-file], [--combine] wins over the selection:
    whatever [pick_mp3] returned, the audio of the run is the file named
    by the clock in the audio directory, made by [combine_mp3s], or the
    run ends with the error of [combine_mp3s]; but an error of [pick_mp3]
    ends the run before anything is combined. *)
Theorem combine_wins_over_selection (args : Args) (w : World) :
  arg_audio_file args = None ->
  arg_combine args = true ->
  (forall picked w1,
     pick_mp3 H (arg_audio_dir args) (arg_audio_pick args) (arg_audio_name args) w
     = (Ok picked, w1) ->
     let combined :=
       joinpath (arg_audio_dir args)
                (now_strftime H "%Y.%m.%d-%H.%M.%S" w1 ++ ".mp3") in
     main_resolve_audio H args w
     = match combine_mp3s H (arg_audio_input_dir args) combined w1 with
       | (Ok _, w2) => (Ok combined, w2)
       | (Raise e, w2) => (Raise e, w2)
       end)
  /\ (forall e w1,
        pick_mp3 H (arg_audio_dir args) (arg_audio_pick args) (arg_audio_name args) w
        = (Raise e, w1) ->
        main_resolve_audio H args w = (Raise e, w1)).
Proof.
  intros Hf Hc. split.
  - intros picked w1 Hp combined.
    unfold main_resolve_audio. rewrite Hf, Hc. unfold bind at 1. rewrite Hp.
    destruct picked; unfold bind, read; fold combined;
      destruct (combine_mp3s H (arg_audio_input_dir args) combined w1) as [[[]|e] w2];
      reflexivity.
  - intros e w1 Hp.
    unfold main_resolve_audio. rewrite Hf, Hc. unfold bind at 1. now rewrite Hp.
Qed.

(** X16.  A missing tool ends the run before anything else is looked at,
    in every mode: [ffmpeg] is checked first, then [ffprobe]. *)
Theorem missing_tool_is_fatal (args : Args) (w : World) :
  (which H "ffmpeg" w = false ->
   main H args w = (Raise (SystemExit "Missing required tool: ffmpeg"), w))
  /\ (which H "ffmpeg" w = true -> which H "ffprobe" w = false ->
      main H args w = (Raise (SystemExit "Missing required tool: ffprobe"), w)).
Proof.
  unfold main, bind, which_or_die. split.
  - intros H1. now rewrite H1.
  - intros H1 H2. now rewrite H1, H2.
Qed.

(** X17.  With [--list-audio-lengths] the run is the listing of the audio
    directory and nothing else: every other option is ignored, also an
    [--audio-file] or a video directory that does not exist; for a
    directory without tracks the run is the print of one line, and ends
    normally when that print succeeds. *)
Theorem list_mode_only_lists (args : Args) (w : World) :
  arg_list_audio_lengths args = true ->
  which H "ffmpeg" w = true ->
  which H "ffprobe" w = true ->
  main H args w = main_list_audio_lengths H args w
  /\ (forall other : Args,
        arg_list_audio_lengths other = true ->
        arg_audio_dir other = arg_audio_dir args ->
        main H other w = main H args w)
  /\ (mp3_files H (arg_audio_dir args) w = [] ->
      main H args w
      = print H ("No MP3 files found in " ++ str (arg_audio_dir args)) w).
Proof.
  intros Hl H1 H2.
  assert (forall a, arg_list_audio_lengths a = true ->
                    main H a w = main_list_audio_lengths H a w) as Hmain.
  { intros a Ha. unfold main, bind, which_or_die. now rewrite H1, H2, Ha. }
  split; [now apply Hmain |]. split.
  - intros other Ho Hd. rewrite (Hmain other Ho), (Hmain args Hl).
    unfold main_list_audio_lengths. now rewrite Hd.
  - intros He. rewrite (Hmain args Hl).
    unfold main_list_audio_lengths, bind, read. now rewrite He.
Qed.

End RunProperties.

(* ================================================================== *)
(** ** The width of a formatted duration *)

(** X18.  Below a hundred hours the text of a duration has exactly eight
    characters. *)
Theorem format_duration_width (seconds : float) (total : Z) :
  py_round seconds = Ok total ->
  0 <= total < 360000 ->
  exists text, format_duration seconds = Ok text /\ String.length text = 8%nat.
Proof.
  intros Hr Ht. unfold format_duration. rewrite Hr.
  eexists. split; [reflexivity |].
  assert (0 <= total / 3600 < 100)
    by (split; [apply Z.div_pos; lia | apply Z.div_lt_upper_bound; lia]).
  pose proof (Z.mod_pos_bound total 3600 ltac:(lia)).
  assert (0 <= total mod 3600 / 60 < 60)
    by (split; [apply Z.div_pos; lia | apply Z.div_lt_upper_bound; lia]).
  pose proof (Z.mod_pos_bound total 60 ltac:(lia)).
  rewrite !length_append.
  rewrite !fmt_02d_two_digits by lia. reflexivity.
Qed.

Lemma format_duration_width_witness :
  py_round 359999.4%float = Ok 359999
  /\ exists text, format_duration 359999.4%float = Ok text
                  /\ String.length text = 8%nat.
Proof.
  split; [vm_compute; reflexivity |].
  apply (format_duration_width 359999.4%float 359999); [vm_compute; reflexivity | lia].
Defined.

(* ================================================================== *)
(** ** The further properties on the in-memory host *)

Lemma sim_replace_raises (src dst : Path) (w0 : Sim.world) (e0 : exn)
  (w1 : Sim.world) :
  os_replace Sim.host src dst w0 = (Raise e0, w1) -> is_Exception e0 = true.
Proof.
  simpl. unfold Sim.sim_replace.
  destruct (Sim.find_file src w0); [discriminate |]. now intros [= <- _].
Qed.

Lemma existing_output_is_kept_witness :
  ffprobe_duration Sim.host Scenario.a_mp4 Scenario.output_taken
  = (Ok 10.0%float, Scenario.output_taken)
  /\ path_exists Sim.host (path_of_string "video/a_newaudio.mp4")
       Scenario.output_taken = true
  /\ process_video Sim.host default_args Scenario.song 12.5%float Scenario.a_mp4
       Scenario.output_taken
     = (Raise (RuntimeError "Output exists: video/a_newaudio.mp4 (use --overwrite)"),
        Scenario.output_taken)
  /\ fst (process_all Sim.host default_args Scenario.song 12.5%float
            [Scenario.a_mp4] [] Scenario.output_taken)
     = Ok [(Scenario.a_mp4, "Output exists: video/a_newaudio.mp4 (use --overwrite)")].
Proof.
  destruct (existing_output_is_kept Sim.host default_args Scenario.song
              12.5%float Scenario.a_mp4 Scenario.output_taken
              Scenario.output_taken 10.0%float
              (path_of_string "video/a_newaudio.mp4")
              eq_refl eq_refl eq_refl eq_refl) as (Hstep & Hnext & _).
  split; [reflexivity |]. split; [reflexivity |]. split; [exact Hstep |].
  rewrite (Hnext [] []
             (snd (print Sim.host
                     "Failed: video/a.mp4 (Output exists: video/a_newaudio.mp4 (use --overwrite))"
                     Scenario.output_taken)) eq_refl).
  reflexivity.
Defined.

Lemma batch_aborts_only_on_unparseable_probe_witness :
  (exists video_path text,
     In video_path [Scenario.a_mp4; Scenario.b_mkv; Scenario.c_webm]
     /\ py_float Sim.host text = None
     /\ fst (process_all Sim.host default_args Scenario.song 12.5%float
               [Scenario.a_mp4; Scenario.b_mkv; Scenario.c_webm] []
               Scenario.second_unparseable)
        = Raise (SystemExit ("Could not parse duration for " ++ str video_path
                             ++ ": " ++ text)))
  \/ (exists video_path msg w0 e,
        In video_path [Scenario.a_mp4; Scenario.b_mkv; Scenario.c_webm]
        /\ fst (print Sim.host ("Failed: " ++ str video_path ++ " (" ++ msg ++ ")") w0)
           = Raise e).
Proof.
  destruct (batch_aborts_only_on_unparseable_probe Sim.host default_args
              Scenario.song 12.5%float
              [Scenario.a_mp4; Scenario.b_mkv; Scenario.c_webm]
              sim_replace_raises [] Scenario.second_unparseable
              (snd (process_all Sim.host default_args Scenario.song 12.5%float
                      [Scenario.a_mp4; Scenario.b_mkv; Scenario.c_webm] []
                      Scenario.second_unparseable))
              (SystemExit "Could not parse duration for video/b.mkv: N/A"))
    as [(v & t & Hin & Hf & He) | (v & m & w0 & Hin & Hpr)].
  { vm_compute. reflexivity. }
  - left. exists v, t. split; [exact Hin |]. split; [exact Hf |].
    rewrite <- He. vm_compute. reflexivity.
  - right. exists v, m, w0, (SystemExit "Could not parse duration for video/b.mkv: N/A").
    split; [exact Hin |]. now rewrite Hpr.
Defined.

Lemma main_batch_outcome_witness :
  select_videos [Scenario.a_mp4; Scenario.c_webm] <> []
  /\ fst (main_batch Sim.host default_args Scenario.song Scenario.transcode_fails)
     = Raise (SystemExit "1 video(s) failed").
Proof.
  assert (select_videos [Scenario.a_mp4; Scenario.c_webm] <> []) as Hne
    by (vm_compute; discriminate).
  split; [exact Hne |].
  pose proof (main_batch_outcome Sim.host default_args Scenario.song
                Scenario.transcode_fails Scenario.transcode_fails
                [Scenario.a_mp4; Scenario.c_webm] 12.5%float
                eq_refl eq_refl eq_refl Hne eq_refl) as Hm.
  remember (main_batch Sim.host default_args Scenario.song Scenario.transcode_fails)
    as run.
  clear Heqrun. vm_compute in Hm. destruct Hm as [-> _]. reflexivity.
Defined.

Lemma main_batch_fatal_before_loop_witness :
  path_exists Sim.host Scenario.song Scenario.audio_corrupt = true
  /\ main_batch Sim.host default_args Scenario.song Scenario.audio_corrupt
     = (Raise (CalledProcessError 1 (ffprobe_cmd Scenario.song)),
        Scenario.audio_corrupt).
Proof.
  split; [reflexivity |].
  destruct (main_batch_fatal_before_loop Sim.host default_args Scenario.song
              Scenario.audio_corrupt eq_refl) as [_ Hdir].
  destruct (Hdir eq_refl) as [_ Hprobe].
  apply (Hprobe [Scenario.a_mp4]); [reflexivity | vm_compute; discriminate | reflexivity].
Defined.

Lemma combine_mp3s_cleans_up_witness :
  sorted (glob Sim.host (path_of_string "audio-input") "*.mp3" Scenario.bad_fragment)
  = [path_of_string "audio-input/a.mp3"; path_of_string "audio-input/b.mp3"]
  /\ (let '(r, w) := combine_mp3s Sim.host (path_of_string "audio-input")
                       (path_of_string "audio/all.mp3") Scenario.bad_fragment in
      (exists cmd, r = Raise (CalledProcessError 1 cmd))
      /\ path_exists Sim.host Sim.tmp_path w = false
      /\ path_exists Sim.host (joinpath Sim.tmp_path "concat.txt") w = false).
Proof.
  split; [reflexivity |].
  destruct (combine_mp3s_cleans_up Sim.host (path_of_string "audio-input")
              (path_of_string "audio/all.mp3") Scenario.bad_fragment) as [_ Hrun].
  { vm_compute. discriminate. }
  specialize (Hrun Scenario.bad_fragment Sim.tmp_path
                (snd (mkdtemp Sim.host Scenario.bad_fragment)) eq_refl eq_refl).
  cbv zeta in Hrun. rewrite Hrun. vm_compute.
  split; [eexists; reflexivity |]. split; reflexivity.
Defined.

Lemma combine_wins_over_selection_witness :
  arg_audio_file Scenario.combine_args = None
  /\ arg_combine Scenario.combine_args = true
  /\ fst (pick_mp3 Sim.host Scenario.audio "latest" None Scenario.fragments)
     = Ok (Some (path_of_string "audio/old.mp3"))
  /\ fst (main_resolve_audio Sim.host Scenario.combine_args Scenario.fragments)
     = Ok (path_of_string "audio/2024.01.02-03.04.05.mp3").
Proof.
  split; [reflexivity |]. split; [reflexivity |]. split; [reflexivity |].
  destruct (combine_wins_over_selection Sim.host Scenario.combine_args
              Scenario.fragments eq_refl eq_refl) as [Hwin _].
  specialize (Hwin (Some (path_of_string "audio/old.mp3")) Scenario.fragments eq_refl).
  cbv zeta in Hwin. rewrite Hwin. vm_compute. reflexivity.
Defined.

Lemma missing_tool_is_fatal_witness :
  which Sim.host "ffprobe" Scenario.no_ffprobe = false
  /\ main Sim.host Scenario.list_args Scenario.no_ffprobe
     = (Raise (SystemExit "Missing required tool: ffprobe"), Scenario.no_ffprobe)
  /\ main Sim.host default_args Scenario.no_ffprobe
     = (Raise (SystemExit "Missing required tool: ffprobe"), Scenario.no_ffprobe).
Proof.
  split; [reflexivity |]. split.
  - exact (proj2 (missing_tool_is_fatal Sim.host Scenario.list_args
                    Scenario.no_ffprobe) eq_refl eq_refl).
  - exact (proj2 (missing_tool_is_fatal Sim.host default_args
                    Scenario.no_ffprobe) eq_refl eq_refl).
Defined.

Lemma list_mode_only_lists_witness :
  arg_list_audio_lengths Scenario.list_args = true
  /\ path_exists Sim.host (path_of_string "nowhere/x.mp3") Scenario.no_videos = false
  /\ path_exists Sim.host (path_of_string "no-such-dir") Scenario.no_videos = false
  /\ main Sim.host Scenario.list_args Scenario.no_videos
     = main_list_audio_lengths Sim.host Scenario.list_args Scenario.no_videos
  /\ fst (main Sim.host Scenario.list_args Scenario.no_videos) = Ok tt.
Proof.
  destruct (list_mode_only_lists Sim.host Scenario.list_args Scenario.no_videos
              eq_refl eq_refl eq_refl) as (Hmain & _ & _).
  split; [reflexivity |]. split; [reflexivity |]. split; [reflexivity |].
  split; [exact Hmain |]. rewrite Hmain. vm_compute. reflexivity.
Defined.

Lemma without_in_place_step_ends_with_transcode_witness :
  arg_in_place default_args = false
  /\ (let '(r, w) := process_video Sim.host default_args Scenario.song 12.5%float
                       Scenario.a_mp4 Scenario.transcode_fails in
      r = Ok tt
      /\ Sim.data_at "video/a.mp4" w = Some "10.0"
      /\ Sim.data_at "video/a_newaudio.mp4" w = Some "10.0")
  /\ (let '(r, w) := process_video Sim.host default_args Scenario.song 12.5%float
                       Scenario.c_webm Scenario.transcode_fails in
      (exists cmd, r = Raise (CalledProcessError 1 cmd))
      /\ Sim.data_at "video/c.webm" w = Some "10.02").
Proof.
  split; [reflexivity |]. split.
  - pose proof (without_in_place_step_ends_with_transcode Sim.host default_args
                  Scenario.song 12.5%float Scenario.a_mp4 Scenario.transcode_fails
                  Scenario.transcode_fails 10.0%float
                  (path_of_string "video/a_newaudio.mp4")
                  eq_refl eq_refl eq_refl eq_refl) as Hthm.
    cbv zeta in Hthm.
    remember (process_video Sim.host default_args Scenario.song 12.5%float
                Scenario.a_mp4 Scenario.transcode_fails) as step.
    clear Heqstep. vm_compute in Hthm. rewrite Hthm.
    split; [reflexivity |]. split; reflexivity.
  - pose proof (without_in_place_step_ends_with_transcode Sim.host default_args
                  Scenario.song 12.5%float Scenario.c_webm Scenario.transcode_fails
                  Scenario.transcode_fails 10.02%float
                  (path_of_string "video/c_newaudio.webm")
                  eq_refl eq_refl eq_refl eq_refl) as Hthm.
    cbv zeta in Hthm.
    remember (process_video Sim.host default_args Scenario.song 12.5%float
                Scenario.c_webm Scenario.transcode_fails) as step.
    clear Heqstep. vm_compute in Hthm. rewrite Hthm.
    split; [eexists; reflexivity |]. reflexivity.
Defined.

(** A run in which the failure line of a video cannot be printed: the
    probe of the video fails, the name of the video is no UTF-8, and the
    error of the print ends the run before the next video is processed. *)
Example run_stops_when_failure_line_cannot_be_printed :
  let '(r, w) := main Sim.host default_args Scenario.unprintable_name in
  (exists msg, r = Raise (ValueError msg))
  /\ Sim.data_at "video/c_newaudio.webm" w = None
  /\ Sim.sw_stdout w = [].
Proof. vm_compute. split; [eexists; reflexivity |]. split; reflexivity. Qed.

(** An extension written with the Kelvin sign: [".mKv"] is lower-cased
    to [".mkv"], so the file is a video of the batch and is converted. *)
Example kelvin_sign_extension_is_video :
  lower (".m" ++ kelvin_sign ++ "v")%string = ".mkv"
  /\ select_videos [path_of_string ("video/x.m" ++ kelvin_sign ++ "v")]
     = [path_of_string ("video/x.m" ++ kelvin_sign ++ "v")]
  /\ fst (main Sim.host default_args Scenario.kelvin_extension) = Ok tt.
Proof. vm_compute. repeat split. Qed.
